(** * The OTP relay bot ([src/bot.py]): extraction, masking, time rendering
      and the polling cycle of [TelegramOTPFetcher].

    Texts are Python [str] values restricted to the code points below 256,
    one [ascii] per code point; the character classes are the ones the [re]
    module uses for [str] patterns on that range. *)

From Stdlib Require Import ZArith Lia Ascii String List Bool.
From stdpp Require Import gmap strings list pretty.
Import ListNotations.

Local Open Scope nat_scope.
Set Warnings "-clear-no-such-hyp,-level-tolerance,-notation-for-abbreviation".

(* ===================================================================== *)
(** ** Characters and the classes of the [re] module                      *)
(* ===================================================================== *)

Module Chars.

Definition code (c : ascii) : nat := nat_of_ascii c.

Definition between (lo hi : nat) (c : ascii) : bool :=
  (lo <=? code c) && (code c <=? hi).

(** [\d] on [str]: the decimal digits; below 256 these are [0-9]. *)
Definition is_digit (c : ascii) : bool := between 48 57 c.

(** [\s] on [str]: tab to carriage return, the four separators 0x1C-0x1F,
    the space, NEL and the no-break space. *)
Definition is_space (c : ascii) : bool :=
  between 9 13 c || between 28 32 c || between 133 133 c || between 160 160 c.

(** [\w] on [str]: alphanumeric code points and the underscore. *)
Definition is_word (c : ascii) : bool :=
  between 48 57 c || between 65 90 c || between 97 122 c || between 95 95 c
  || between 170 170 c || between 178 179 c || between 181 181 c
  || between 185 186 c || between 188 190 c
  || between 192 214 c || between 216 246 c || between 248 255 c.

(** Simple lower-casing of one code point, as [re.IGNORECASE] applies it. *)
Definition lower (c : ascii) : ascii :=
  if between 65 90 c || between 192 214 c || between 216 222 c
  then ascii_of_nat (code c + 32) else c.

Definition eqb_icase (ic : bool) (a b : ascii) : bool :=
  if ic then Ascii.eqb (lower a) (lower b) else Ascii.eqb a b.

End Chars.

(* ===================================================================== *)
(** ** A backtracking matcher for the patterns the bot uses               *)
(* ===================================================================== *)

Module Re.
Import Chars.

(** Character sets: [\d], [\s], a range [a-b], one character, a union. *)
Inductive cset :=
| Digit
| Space
| Range (lo hi : ascii)
| Single (c : ascii)
| Union (a b : cset).

Fixpoint cset_mem (ic : bool) (cs : cset) (x : ascii) : bool :=
  match cs with
  | Digit => is_digit x
  | Space => is_space x
  | Range lo hi =>
      if ic
      then existsb (fun n => Ascii.eqb (lower (ascii_of_nat n)) (lower x))
                   (seq (code lo) (S (code hi) - code lo))
      else between (code lo) (code hi) x
  | Single c => eqb_icase ic c x
  | Union a b => cset_mem ic a x || cset_mem ic b x
  end.

(** Pattern items.  [Rep cs lo hi] is the greedy repeat [cs{lo,hi}]
    ([hi = None]: unbounded, so [*] is [Rep _ 0 None] and [+] is
    [Rep _ 1 None]); [GOpen]/[GClose] delimit capture group 1. *)
Inductive atom :=
| Bound
| Lit (c : ascii)
| Rep (cs : cset) (lo : nat) (hi : option nat)
| GOpen
| GClose.

Definition regex := list atom.

Definition lits (s : string) : regex := map Lit (list_ascii_of_string s).

Definition opt_word (o : option ascii) : bool :=
  match o with Some c => is_word c | None => false end.

(** [\b]: exactly one side of the position is a word character. *)
Definition at_boundary (prev : option ascii) (s : list ascii) : bool :=
  xorb (opt_word prev) (opt_word (head s)).

(** Number of leading characters of [s] that satisfy [f]. *)
Fixpoint run_length (f : ascii -> bool) (s : list ascii) : nat :=
  match s with
  | c :: s' => if f c then S (run_length f s') else 0
  | [] => 0
  end.

(** The character before the position reached after [k] more characters. *)
Definition prev_after (prev : option ascii) (s : list ascii) (k : nat)
  : option ascii :=
  match k with
  | 0 => prev
  | S k' => match nth_error s k' with Some c => Some c | None => prev end
  end.

(** Result of a match attempt: the length matched and the span
    (start, length) of group 1 when it took part. *)
Definition mres : Type := nat * option (nat * nat).

(** [first_down f lo d] is the first success of [f] on the counts
    [lo + d], [lo + d - 1], ..., [lo]. *)
Definition first_down {A} (f : nat -> option A) (lo : nat)
  : nat -> option A :=
  fix give_back (d : nat) : option A :=
    match f (lo + d) with
    | Some r => Some r
    | None => match d with 0 => None | S d' => give_back d' end
    end.

(** Match [p] at the current position.  [prev] is the character before the
    position, [s] the rest of the text, [pos] the number of characters
    already matched, [gs] the start of the open group, [g] the closed one.
    A greedy repeat takes the longest run allowed and gives characters back
    one at a time until the rest of the pattern matches. *)
Fixpoint match_here (ic : bool) (p : regex) (prev : option ascii)
    (s : list ascii) (pos : nat) (gs : option nat) (g : option (nat * nat))
  : option mres :=
  match p with
  | [] => Some (pos, g)
  | Bound :: p' =>
      if at_boundary prev s then match_here ic p' prev s pos gs g else None
  | Lit c :: p' =>
      match s with
      | x :: s' =>
          if eqb_icase ic c x
          then match_here ic p' (Some x) s' (S pos) gs g
          else None
      | [] => None
      end
  | Rep cs lo hi :: p' =>
      let run := run_length (cset_mem ic cs) s in
      let mx := match hi with Some h => Nat.min h run | None => run end in
      if mx <? lo then None
      else
        first_down
          (fun k => match_here ic p' (prev_after prev s k) (drop k s)
                               (pos + k) gs g)
          lo (mx - lo)
  | GOpen :: p' => match_here ic p' prev s pos (Some pos) g
  | GClose :: p' =>
      match_here ic p' prev s pos gs
        (match gs with Some b => Some (b, pos - b) | None => g end)
  end.

Definition has_group (p : regex) : bool :=
  existsb (fun a => match a with GOpen => true | _ => false end) p.

(** What [re.findall] puts in its list for one match: group 1 when the
    pattern has a group, the whole match otherwise. *)
Definition item_of (p : regex) (s : list ascii) (r : mres) : list ascii :=
  if has_group p then
    match snd r with
    | Some (b, n) => take n (drop b s)
    | None => []
    end
  else take (fst r) s.

(** Left-to-right scan for non-overlapping matches.  [skip] counts the
    characters still covered by the previous match.  Every pattern of the
    bot consumes at least one character, so the rules of [findall] for
    empty matches do not arise. *)
Fixpoint scan (ic : bool) (p : regex) (skip : nat) (prev : option ascii)
    (s : list ascii) : list (list ascii) :=
  match skip with
  | S k =>
      match s with
      | c :: s' => scan ic p k (Some c) s'
      | [] => []
      end
  | 0 =>
      match match_here ic p prev s 0 None None with
      | Some r =>
          item_of p s r ::
          match s with
          | c :: s' => scan ic p (fst r - 1) (Some c) s'
          | [] => []
          end
      | None =>
          match s with
          | c :: s' => scan ic p 0 (Some c) s'
          | [] => []
          end
      end
  end.

(** [re.findall(pattern, text, flags)]. *)
Definition findall (ic : bool) (p : regex) (text : list ascii)
  : list (list ascii) :=
  scan ic p 0 None text.

End Re.

(* ===================================================================== *)
(** ** Extractor                                                          *)
(* ===================================================================== *)

Import Chars Re.

(** [self.otp_patterns], in the order of the list in [__init__]. *)
Definition pat_digits : regex := [Bound; Rep Digit 4 (Some 8); Bound].
Definition pat_alnum : regex :=
  [Bound; Rep (Union (Range "A" "Z") (Range "0" "9")) 4 (Some 8); Bound].
Definition sep_then_digits : regex :=
  [Rep (Union (Single ":") Space) 0 None; GOpen; Rep Digit 1 None; GClose].
Definition pat_label (label : string) : regex := lits label ++ sep_then_digits.

Definition otp_patterns : list regex :=
  [ pat_digits;
    pat_alnum;
    pat_label "verification code";
    pat_label "your code";
    pat_label "otp";
    pat_label "code";
    pat_label "pin" ].

(** [extract_otp]: the first pattern with a match decides; its first list
    item is returned.  No pattern has two groups, so [findall] never
    yields tuples and the [isinstance] branch is not taken. *)
Fixpoint first_match (ps : list regex) (text : list ascii)
  : option (list ascii) :=
  match ps with
  | [] => None
  | p :: ps' =>
      match findall true p text with
      | first :: _ => Some first
      | [] => first_match ps' text
      end
  end.

Definition extract_otp_chars (text : list ascii) : option (list ascii) :=
  first_match otp_patterns text.

Definition extract_otp (text : string) : option string :=
  option_map string_of_list_ascii
             (extract_otp_chars (list_ascii_of_string text)).


(** [extract_application_name]: the first keyword of the table, in its
    insertion order, that occurs in the lower-cased text. *)
Fixpoint starts_with (needle hay : list ascii) : bool :=
  match needle, hay with
  | [], _ => true
  | a :: needle', b :: hay' => Ascii.eqb a b && starts_with needle' hay'
  | _ :: _, [] => false
  end.

Fixpoint contains (needle hay : list ascii) : bool :=
  starts_with needle hay ||
  match hay with
  | _ :: hay' => contains needle hay'
  | [] => false
  end.

Definition app_patterns : list (string * string) :=
  [ ("claude", "Claude"); ("openai", "OpenAI"); ("chatgpt", "ChatGPT");
    ("google", "Google"); ("facebook", "Facebook");
    ("instagram", "Instagram"); ("twitter", "Twitter");
    ("x.com", "X (Twitter)"); ("whatsapp", "WhatsApp");
    ("telegram", "Telegram"); ("discord", "Discord");
    ("microsoft", "Microsoft"); ("apple", "Apple"); ("amazon", "Amazon");
    ("netflix", "Netflix"); ("spotify", "Spotify"); ("uber", "Uber");
    ("paypal", "PayPal") ]%string.

Definition extract_application_name (text : string) : string :=
  let text_lower := map lower (list_ascii_of_string text) in
  match
    find (fun pn => contains (list_ascii_of_string (fst pn)) text_lower)
         app_patterns
  with
  | Some pn => snd pn
  | None => "Unknown App"
  end.

(** [extract_phone_number]: the first longest match of [\+?\d{9,15}]. *)
Definition pat_phone : regex :=
  [Rep (Single "+") 0 (Some 1); Rep Digit 9 (Some 15)].

Definition longest_first (l : list (list ascii)) : option (list ascii) :=
  match l with
  | [] => None
  | x :: l' =>
      Some (fold_left (fun best y => if length best <? length y then y else best)
                      l' x)
  end.

Definition extract_phone_number (text : string) : option string :=
  if String.eqb text EmptyString then None
  else option_map string_of_list_ascii
         (longest_first (findall false pat_phone (list_ascii_of_string text))).

(* ===================================================================== *)
(** ** Formatter                                                          *)
(* ===================================================================== *)

(** [re.sub] with the pattern [\D] and an empty replacement. *)
Definition strip_non_digits (s : list ascii) : list ascii :=
  List.filter is_digit s.

Definition digits_of (s : string) : list ascii :=
  strip_non_digits (list_ascii_of_string s).

(** The slice [l[-n:]]. *)
Definition last_n {A} (n : nat) (l : list A) : list A :=
  drop (length l - n) l.

Definition stars : list ascii := list_ascii_of_string "*****".

(** [format_phone_number], the masking of the inbound path. *)
Definition format_phone_number (phone_number : string) : string :=
  if String.eqb phone_number EmptyString then "Unknown"
  else
    let digits := digits_of phone_number in
    if length digits <? 6 then phone_number
    else string_of_list_ascii (take 3 digits ++ stars ++ last_n 3 digits).

(** [mask_number], the masking of the upstream path (its argument is
    already [str(num)]). *)
Definition mask_number (num : string) : string :=
  let clean := digits_of num in
  if 6 <? length clean
  then string_of_list_ascii (take 5 clean ++ stars ++ last_n 3 clean)
  else match clean with
       | [] => "N/A"
       | _ => string_of_list_ascii clean
       end.

(** Field values of an upstream record, as the Python objects [json]
    decodes them to: the scalars, and nested values (a [list] or a
    [dict]), of which the code can observe the truth value and the text
    [str] gives; fractions are outside this model. *)
Inductive pyval :=
| PNone
| PBool (b : bool)
| PInt (z : Z)
| PStr (s : string)
| PNested (truth : bool) (text : string).

Definition truthy (v : pyval) : bool :=
  match v with
  | PNone => false
  | PBool b => b
  | PInt z => negb (z =? 0)%Z
  | PStr s => negb (String.eqb s EmptyString)
  | PNested truth _ => truth
  end.

(** Whether [hash(v)] returns: a [list] or a [dict] is unhashable and a
    membership test of a set on it raises [TypeError]. *)
Definition hashable (v : pyval) : bool :=
  match v with
  | PNested _ _ => false
  | _ => true
  end.

(** [str(v)]. *)
Definition py_str (v : pyval) : string :=
  match v with
  | PNone => "None"
  | PBool true => "True"
  | PBool false => "False"
  | PInt z => pretty z
  | PStr s => s
  | PNested _ text => text
  end.

(** Calendar values of [datetime]; microseconds and the UTC offset are
    carried by the parsed value but change neither the shift by whole
    hours nor the rendered fields, so they are not kept. *)
Record datetime := mk_datetime {
  year : Z; month : Z; day : Z; hour : Z; minute : Z; second : Z
}.

Local Open Scope Z_scope.

Definition is_leap (y : Z) : bool :=
  (y mod 4 =? 0) && (negb (y mod 100 =? 0) || (y mod 400 =? 0)).

Definition days_in_month (y m : Z) : Z :=
  if m =? 2 then (if is_leap y then 29 else 28)
  else if (m =? 4) || (m =? 6) || (m =? 9) || (m =? 11) then 30
  else 31.

(** [dt + timedelta(hours=h)] for [0 <= h < 24]; [None] is the
    [OverflowError] raised past year 9999. *)
Definition plus_hours (h : Z) (dt : datetime) : option datetime :=
  let hh := hour dt + h in
  if hh <? 24 then
    Some (mk_datetime (year dt) (month dt) (day dt) hh (minute dt) (second dt))
  else if day dt + 1 <=? days_in_month (year dt) (month dt) then
    Some (mk_datetime (year dt) (month dt) (day dt + 1) (hh - 24)
                      (minute dt) (second dt))
  else if month dt <? 12 then
    Some (mk_datetime (year dt) (month dt + 1) 1 (hh - 24)
                      (minute dt) (second dt))
  else if year dt <? 9999 then
    Some (mk_datetime (year dt + 1) 1 1 (hh - 24) (minute dt) (second dt))
  else None.

Definition digit_char (n : Z) : ascii := ascii_of_nat (48 + Z.to_nat n).

Definition pad2 (n : Z) : list ascii :=
  [digit_char (n / 10 mod 10); digit_char (n mod 10)].

Definition pad4 (n : Z) : list ascii :=
  [digit_char (n / 1000 mod 10); digit_char (n / 100 mod 10);
   digit_char (n / 10 mod 10); digit_char (n mod 10)].

(** [%I]: the hour on the 12-hour clock. *)
Definition hour12 (h : Z) : Z := if h mod 12 =? 0 then 12 else h mod 12.

(** [%p] in the C locale. *)
Definition am_pm (h : Z) : list ascii :=
  list_ascii_of_string (if h <? 12 then "AM" else "PM").

(** [%Y] as the C library of Linux writes it: the year (1 to 9999) in
    decimal, without leading zeros. *)
Definition year_text (y : Z) : list ascii :=
  if y <? 10 then [digit_char (y mod 10)]
  else if y <? 100 then [digit_char (y / 10 mod 10); digit_char (y mod 10)]
  else if y <? 1000 then
    [digit_char (y / 100 mod 10); digit_char (y / 10 mod 10);
     digit_char (y mod 10)]
  else pad4 y.

(** [dt.strftime("%d-%m-%Y %I:%M:%S %p")]. *)
Definition strftime (dt : datetime) : string :=
  string_of_list_ascii
    (pad2 (day dt) ++ ["-"%char] ++ pad2 (month dt) ++ ["-"%char]
     ++ year_text (year dt) ++ [" "%char]
     ++ pad2 (hour12 (hour dt)) ++ [":"%char] ++ pad2 (minute dt)
     ++ [":"%char] ++ pad2 (second dt) ++ [" "%char] ++ am_pm (hour dt)).

(** The values a [datetime] can have. *)
Definition valid_datetime (dt : datetime) : Prop :=
  1 <= year dt <= 9999 /\ 1 <= month dt <= 12
  /\ 1 <= day dt <= days_in_month (year dt) (month dt)
  /\ 0 <= hour dt <= 23 /\ 0 <= minute dt <= 59 /\ 0 <= second dt <= 59.

(** A time scale to measure the shift on: the days of the calendar before
    a year and before a month of it, and the hours from the start of year
    1 to the hour of a date. *)
Definition days_before_year (y : Z) : Z :=
  365 * (y - 1) + (y - 1) / 4 - (y - 1) / 100 + (y - 1) / 400.

Definition days_before_month (y m : Z) : Z :=
  match m with
  | 1 => 0 | 2 => 31 | 3 => 59 | 4 => 90 | 5 => 120 | 6 => 151
  | 7 => 181 | 8 => 212 | 9 => 243 | 10 => 273 | 11 => 304 | 12 => 334
  | _ => 0
  end + (if (2 <? m) && is_leap y then 1 else 0).

Definition hours_since_start (dt : datetime) : Z :=
  24 * (days_before_year (year dt) + days_before_month (year dt) (month dt)
        + day dt)
  + hour dt.

Local Close Scope Z_scope.

(** [time_str.replace("Z", "+00:00")]: every [Z] is replaced. *)
Definition replace_Z (s : string) : string :=
  string_of_list_ascii
    (flat_map (fun c => if Ascii.eqb c "Z" then list_ascii_of_string "+00:00"
                        else [c])
              (list_ascii_of_string s)).

Section Rendering.

(** [datetime.fromisoformat] belongs to the Python library and its grammar
    depends on the interpreter version; it is a parameter here, [None]
    standing for the [ValueError] it raises. *)
Variable fromisoformat : string -> option datetime.

(** The computation of [formatted_time] from [time_str] in the delivery
    loop.  A value without a [replace] method raises inside the [try] and
    is passed through like a parse failure. *)
Definition formatted_time (time_str : pyval) : pyval :=
  match time_str with
  | PStr s =>
      if truthy time_str && negb (String.eqb s "N/A") then
        match fromisoformat (replace_Z s) with
        | Some dt =>
            match plus_hours 6 dt with
            | Some bd_time => PStr (strftime bd_time)
            | None => time_str
            end
        | None => time_str
        end
      else time_str
  | _ => time_str
  end.

End Rendering.

(** A reference reader for the timestamps every CPython since 3.7 reads
    the same way: [YYYY-MM-DD], optionally followed by one separator
    character, [HH:MM:SS] and a UTC offset [+HH:MM] or [-HH:MM]. *)
Definition digit_val (c : ascii) : option Z :=
  if is_digit c then Some (Z.of_nat (code c) - 48)%Z else None.

Definition num2 (a b : ascii) : option Z :=
  match digit_val a, digit_val b with
  | Some x, Some y => Some (10 * x + y)%Z
  | _, _ => None
  end.

Definition num4 (a b c d : ascii) : option Z :=
  match num2 a b, num2 c d with
  | Some x, Some y => Some (100 * x + y)%Z
  | _, _ => None
  end.

Definition in_bounds (lo v hi : Z) : bool := ((lo <=? v) && (v <=? hi))%Z.

Definition read_date (y1 y2 y3 y4 m1 m2 d1 d2 : ascii)
  : option (Z * Z * Z) :=
  match num4 y1 y2 y3 y4, num2 m1 m2, num2 d1 d2 with
  | Some y, Some m, Some d =>
      if in_bounds 1 y 9999 && in_bounds 1 m 12
         && in_bounds 1 d (days_in_month y m)
      then Some (y, m, d) else None
  | _, _, _ => None
  end.

Definition read_clock (h1 h2 m1 m2 s1 s2 : ascii) : option (Z * Z * Z) :=
  match num2 h1 h2, num2 m1 m2, num2 s1 s2 with
  | Some h, Some m, Some s =>
      if in_bounds 0 h 23 && in_bounds 0 m 59 && in_bounds 0 s 59
      then Some (h, m, s) else None
  | _, _, _ => None
  end.

Definition read_offset (tz : list ascii) : bool :=
  match tz with
  | [] => true
  | [sg; h1; h2; c; m1; m2] =>
      (Ascii.eqb sg "+" || Ascii.eqb sg "-") && Ascii.eqb c ":" &&
      match num2 h1 h2, num2 m1 m2 with
      | Some h, Some m => in_bounds 0 h 23 && in_bounds 0 m 59
      | _, _ => false
      end
  | _ => false
  end.

Definition fromisoformat_core (s : string) : option datetime :=
  match list_ascii_of_string s with
  | y1 :: y2 :: y3 :: y4 :: c1 :: m1 :: m2 :: c2 :: d1 :: d2 :: rest =>
      if Ascii.eqb c1 "-" && Ascii.eqb c2 "-" then
        match read_date y1 y2 y3 y4 m1 m2 d1 d2 with
        | Some (y, m, d) =>
            match rest with
            | [] => Some (mk_datetime y m d 0 0 0)
            | _ :: h1 :: h2 :: c3 :: n1 :: n2 :: c4 :: s1 :: s2 :: tz =>
                if Ascii.eqb c3 ":" && Ascii.eqb c4 ":" && read_offset tz then
                  match read_clock h1 h2 n1 n2 s1 s2 with
                  | Some (h, n, sec) => Some (mk_datetime y m d h n sec)
                  | None => None
                  end
                else None
            | _ => None
            end
        | None => None
        end
      else None
  | _ => None
  end.

(** Reading a rendered time back: the text [DD-MM-YYYY hh:mm:ss AM] or
    [... PM] of 22 characters, with the hour taken back to the 24-hour
    clock. *)
Definition read_rendered (s : string) : option datetime :=
  match list_ascii_of_string s with
  | [d1; d2; c1; m1; m2; c2; y1; y2; y3; y4; b1; h1; h2; c3; n1; n2; c4;
     s1; s2; b2; ap; mm] =>
      if Ascii.eqb c1 "-" && Ascii.eqb c2 "-" && Ascii.eqb b1 " "
         && Ascii.eqb c3 ":" && Ascii.eqb c4 ":" && Ascii.eqb b2 " "
         && (Ascii.eqb ap "A" || Ascii.eqb ap "P") && Ascii.eqb mm "M"
      then
        match num2 d1 d2, num2 m1 m2, num4 y1 y2 y3 y4,
              num2 h1 h2, num2 n1 n2, num2 s1 s2 with
        | Some d, Some m, Some y, Some h, Some n, Some sec =>
            Some (mk_datetime y m d
                    (h mod 12 + (if Ascii.eqb ap "P" then 12 else 0))%Z
                    n sec)
        | _, _, _, _, _, _ => None
        end
      else None
  | _ => None
  end.

(* ===================================================================== *)
(** ** Dedup ledger and the polling cycle                                 *)
(* ===================================================================== *)

(** The ledger [self.sent_numbers] is a Python set of record ids.  Python
    compares [True] with [1] and [False] with [0] as equal, so a set holds
    one of them for both; [set_key] picks the integer. *)
Definition set_key (v : pyval) : pyval :=
  match v with
  | PBool b => PInt (if b then 1 else 0)
  | _ => v
  end.

Definition pyval_code (v : pyval)
  : ((unit + bool) + (Z + string)) + (bool * string) :=
  match v with
  | PNone => inl (inl (inl tt))
  | PBool b => inl (inl (inr b))
  | PInt z => inl (inr (inl z))
  | PStr s => inl (inr (inr s))
  | PNested truth text => inr (truth, text)
  end.

Definition pyval_decode
    (x : ((unit + bool) + (Z + string)) + (bool * string)) : pyval :=
  match x with
  | inl (inl (inl _)) => PNone
  | inl (inl (inr b)) => PBool b
  | inl (inr (inl z)) => PInt z
  | inl (inr (inr s)) => PStr s
  | inr (truth, text) => PNested truth text
  end.

#[global] Instance pyval_eq_dec : EqDecision pyval.
Proof. solve_decision. Defined.

#[global] Instance pyval_countable : Countable pyval.
Proof.
  apply (inj_countable' pyval_code pyval_decode).
  intros []; reflexivity.
Defined.

(** A JSON object decoded to a [dict]. *)
Definition record : Type := list (string * pyval).

(** [d.get(key, default)]. *)
Fixpoint dict_get (d : record) (key : string) (default : pyval) : pyval :=
  match d with
  | [] => default
  | (k, v) :: d' => if String.eqb k key then v else dict_get d' key default
  end.

(** An element of the fetched list: an object, or anything else (a value
    without a [get] method). *)
Inductive item :=
| Obj (n : record)
| NotObj.

(** What the fetch hands to the cycle as [numbers]: a list, or some other
    value of which only the truth value matters ([for] raises on it, or on
    its first element). *)
Inductive payload :=
| NumList (l : list item)
| NumOther (truth : bool).

(** The outcome of the HTTP exchange: an exception anywhere inside the
    [try] of the fetch (transport, timeout, undecodable body, a body that
    is not shaped as [{data: {numbers: ...}}]), or a status together with
    the value found at [data.numbers] ([[]] when a key is absent). *)
Inductive http :=
| HttpFailure
| HttpReply (status : Z) (numbers : payload).

Definition read_reply (h : http) : payload :=
  match h with
  | HttpReply status numbers =>
      if (status =? 200)%Z then numbers else NumList []
  | HttpFailure => NumList []
  end.

(** The fetch yields nothing: an exception, or a status other than 200. *)
Definition fetch_failed (h : http) : bool :=
  match h with
  | HttpFailure => true
  | HttpReply status _ => negb (status =? 200)%Z
  end.

Record bot := mk_bot {
  chat_id : string;
  api_key : string;
  started : bool;                (* [self.start_time] is set *)
  sent_numbers : gset pyval
}.

Definition with_sent (b : bot) (sent : gset pyval) : bot :=
  mk_bot (chat_id b) (api_key b) (started b) sent.

Definition get_recent_success_numbers (b : bot) (h : http) : payload :=
  if String.eqb (api_key b) EmptyString then NumList [] else read_reply h.

Definition get_recent_success_numbers_after_start (b : bot) (h : http)
  : payload :=
  if negb (started b) then get_recent_success_numbers b h else read_reply h.

(** The values interpolated into the announcement text; the layout of the
    text and the two link buttons are constant. *)
Record announcement := mk_announcement {
  a_service : pyval;
  a_masked_phone : string;
  a_otp_code : pyval;
  a_country : pyval;
  a_time : pyval;
  a_full_message : pyval
}.

Definition plus_prefixed (masked_phone : string) : string :=
  match masked_phone with
  | EmptyString => masked_phone
  | String c _ =>
      if Ascii.eqb c "+" then masked_phone else String "+" masked_phone
  end.

(** What the cycle writes: a message handed to the transport and accepted
    by it (with the record it was built from), or the error line of the
    outer [except]. *)
Inductive event :=
| Sent (number : record) (a : announcement)
| LoggedError.

(** Filtering loop (lines 165-170): [new] collects the kept records in
    page order, [sent] is the ledger as mutated so far.  The boolean of
    the result is [false] when the loop was left by an exception ([get]
    called on a value that is not an object, or the membership test on a
    truthy id that is unhashable); the ledger and [new] are then as they
    were at that moment. *)
Fixpoint filtering (numbers : list item) (sent : gset pyval)
    (new : list record) : gset pyval * list record * bool :=
  match numbers with
  | [] => (sent, new, true)
  | NotObj :: _ => (sent, new, false)
  | Obj n :: rest =>
      let nid := dict_get n "id" PNone in
      if truthy nid && negb (hashable nid) then (sent, new, false)
      else if truthy nid && negb (bool_decide (set_key nid ∈ sent))
      then filtering rest ({[set_key nid]} ∪ sent) (new ++ [n])
      else filtering rest sent new
  end.

Section Cycle.

Variable fromisoformat : string -> option datetime.

(** The transport: [send_message t chat a] is the state of the transport
    after the call and whether the call returned ([false]: it raised). *)
Variable T : Type.
Variable send_message : T -> string -> announcement -> T * bool.

Definition build (number : record) : announcement :=
  let time_str := dict_get number "receivedAt" (PStr "N/A") in
  let country := dict_get number "country" (PStr "N/A") in
  let phone_number := dict_get number "phoneNumber" (PStr "N/A") in
  let otp_code := dict_get number "otpCode" (PStr "N/A") in
  let service := dict_get number "service" (PStr "N/A") in
  let full_message := dict_get number "fullMessage" (PStr "N/A") in
  mk_announcement service
    (plus_prefixed (mask_number (py_str phone_number)))
    otp_code country (formatted_time fromisoformat time_str) full_message.

(** Delivery loop (lines 174-226).  The result tells whether the loop ran
    to its end; a call that raises leaves the loop. *)
Fixpoint delivering (b : bot) (new : list record) (t : T)
  : T * list event * bool :=
  match new with
  | [] => (t, [], true)
  | number :: rest =>
      match send_message t (chat_id b) (build number) with
      | (t', true) =>
          let '(t'', evs, ok) := delivering b rest t' in
          (t'', Sent number (build number) :: evs, ok)
      | (t', false) => (t', [], false)
      end
  end.

(** [send_success_numbers_to_group]: one polling cycle. *)
Definition send_success_numbers_to_group (b : bot) (h : http) (t : T)
  : bot * T * list event :=
  match get_recent_success_numbers_after_start b h with
  | NumOther false => (b, t, [])
  | NumOther true => (b, t, [LoggedError])
  | NumList [] => (b, t, [])
  | NumList numbers =>
      let '(sent, new, completed) := filtering numbers (sent_numbers b) [] in
      if negb completed then (with_sent b sent, t, [LoggedError])
      else
        match new with
        | [] => (with_sent b sent, t, [])
        | _ =>
            let '(t', evs, ok) := delivering (with_sent b sent) new t in
            (with_sent b sent, t', evs ++ (if ok then [] else [LoggedError]))
        end
  end.

Definition ledger_after (b : bot) (h : http) (t : T) : gset pyval :=
  sent_numbers (fst (fst (send_success_numbers_to_group b h t))).

Definition events_of (b : bot) (h : http) (t : T) : list event :=
  snd (send_success_numbers_to_group b h t).

Definition transport_after (b : bot) (h : http) (t : T) : T :=
  snd (fst (send_success_numbers_to_group b h t)).

End Cycle.

(** The records the filtering loop of a cycle queues in [new]. *)
Definition queued (b : bot) (h : http) : list record :=
  match get_recent_success_numbers_after_start b h with
  | NumList numbers => snd (fst (filtering numbers (sent_numbers b) []))
  | NumOther _ => []
  end.

(** The records announced by a run of events, in order. *)
Definition announced (evs : list event) : list record :=
  flat_map (fun e => match e with Sent n _ => [n] | LoggedError => [] end) evs.

(** The id under which a record enters the ledger. *)
Definition id_of (n : record) : pyval := set_key (dict_get n "id" PNone).

(* ===================================================================== *)
(** ** Inbound classifier                                                 *)
(* ===================================================================== *)

(** The values interpolated into the reply of [handle_message]. *)
Record detection := mk_detection {
  d_application : string;
  d_number : string;
  d_otp : string;
  d_text : string
}.

(** [handle_message] up to the call of [send_message]: [None] when the
    handler returns without sending.  [text] is the message text if any,
    [chat] the id of the chat as a string, [title] the chat title.  The
    country lookup and the clock only fill two more fields of the reply. *)
Definition handle_message (b : bot) (text : option string) (chat : string)
    (title : option string) : option detection :=
  match text with
  | None => None
  | Some message_text =>
      if String.eqb message_text EmptyString then None
      else if negb (String.eqb chat (chat_id b)) then None
      else
        match extract_otp message_text with
        | None => None
        | Some otp =>
            if String.eqb otp EmptyString then None
            else
              let application_name := extract_application_name message_text in
              let phone_number :=
                match extract_phone_number (default EmptyString title) with
                | Some p => p
                | None =>
                    match extract_phone_number message_text with
                    | Some p => p
                    | None => "Unknown"%string
                    end
                end in
              Some (mk_detection application_name
                      (format_phone_number phone_number) otp message_text)
        end
  end.

(* ===================================================================== *)
(** ** Code-like substrings, stated on the text alone                    *)
(* ===================================================================== *)

(** A character of a bare token: a digit or an unaccented letter. *)
Definition alnum (c : ascii) : bool :=
  is_digit c || between 65 90 c || between 97 122 c.

(** A character that may stand between a label and its digits. *)
Definition separator (c : ascii) : bool := Ascii.eqb c ":" || is_space c.

Definition labels : list string :=
  [ "verification code"; "your code"; "otp"; "code"; "pin" ]%string.

Definition same_ignoring_case (a b : list ascii) : Prop :=
  map lower a = map lower b.

(** [tok] stands alone between [pre] and [post]: no word character
    touches it on either side. *)
Definition standalone (pre post : list ascii) : Prop :=
  opt_word (last pre) = false /\ opt_word (head post) = false.

Definition digit_token (pre tok post : list ascii) : Prop :=
  4 <= length tok <= 8 /\ forallb is_digit tok = true /\ standalone pre post.

Definition bare_token (pre tok post : list ascii) : Prop :=
  4 <= length tok <= 8 /\ forallb alnum tok = true /\ standalone pre post.

Definition labeled_code (lab seps : list ascii) (d : ascii) : Prop :=
  (exists l, In l labels /\ same_ignoring_case lab (list_ascii_of_string l))
  /\ forallb separator seps = true /\ is_digit d = true.

(** A text has a code-like substring when it holds a standalone token of
    4 to 8 digits or letters, or one of the labels followed by optional
    separators and a digit. *)
Definition code_like (text : list ascii) : Prop :=
  (exists pre tok post, text = pre ++ tok ++ post /\ bare_token pre tok post)
  \/ (exists pre lab seps d post,
        text = pre ++ lab ++ seps ++ d :: post /\ labeled_code lab seps d).

(** A word of 4 to 8 letters that stands alone: a token without any
    digit. *)
Definition is_letter (c : ascii) : bool :=
  between 65 90 c || between 97 122 c.

Definition plain_word (pre tok post : list ascii) : Prop :=
  4 <= length tok <= 8 /\ forallb is_letter tok = true /\ standalone pre post.

(** The character before the position reached after the characters [a]. *)
Definition before (prev : option ascii) (a : list ascii) : option ascii :=
  match last a with Some c => Some c | None => prev end.

Definition all_ascii : list ascii := map ascii_of_nat (seq 0 256).

(* ===================================================================== *)
(** ** The shape of a masked number and some concrete inputs             *)
(* ===================================================================== *)

(** The shape of a masked number that keeps [lead] leading digits: the
    output is these digits, the five stars and the last 3 digits; its
    only digits are these [lead + 3]; and however the number splits into
    [lead] first digits, a middle and 3 last digits, the output is made
    of the first and the last ones alone. *)
Definition masked_as (lead : nat) (digits : list ascii) (out : string)
  : Prop :=
  out = string_of_list_ascii (take lead digits ++ stars ++ last_n 3 digits)
  /\ digits_of out = take lead digits ++ last_n 3 digits
  /\ length (digits_of out) = lead + 3
  /\ forall first mid last : list ascii,
       digits = first ++ mid ++ last ->
       length first = lead -> length last = 3 ->
       out = string_of_list_ascii (first ++ stars ++ last).

Definition rec_id (i : string) : record := [("id"%string, PStr i)].

Definition bot0 : bot := mk_bot "-1001" "key" true ∅.

(** A transport that raises on every call. *)
Definition refusing (t : unit) (_ : string) (_ : announcement)
  : unit * bool := (t, false).

(** A transport that accepts every call. *)
Definition accepting (t : unit) (_ : string) (_ : announcement)
  : unit * bool := (t, true).

(** A transport that counts its calls and raises on the second one only. *)
Definition flaky (t : nat) (_ : string) (_ : announcement) : nat * bool :=
  (S t, negb (t =? 1)).

Definition page_aba : http :=
  HttpReply 200 (NumList [Obj (rec_id "a"); Obj (rec_id "b"); Obj (rec_id "a")]).

(** The bot after a first cycle on the page [[a; b; a]]. *)
Definition bot1 : bot :=
  fst (fst (send_success_numbers_to_group fromisoformat_core unit accepting
              bot0 page_aba tt)).

(** A page with a record without id, one of id [0], one of empty id and
    one of id ["a"]. *)
Definition page_falsy : http :=
  HttpReply 200
    (NumList [Obj [("service"%string, PStr "x")];
              Obj [("id"%string, PInt 0)];
              Obj [("id"%string, PStr EmptyString)];
              Obj (rec_id "a")]).

(* ===================================================================== *)
(** ** Repeated cycles, startup settings and substrings                  *)
(* ===================================================================== *)

Section Repeating.

Variable fromisoformat : string -> option datetime.
Variable T : Type.
Variable send_message : T -> string -> announcement -> T * bool.

(** [check_and_send_success_numbers]: the job callback, one cycle. *)
Definition check_and_send_success_numbers (b : bot) (h : http) (t : T)
  : bot * T * list event :=
  send_success_numbers_to_group fromisoformat T send_message b h t.

(** The job registered by [run_repeating]: the callback is invoked again
    and again, one invocation after the other; [hs] are the outcomes of
    the successive HTTP exchanges. *)
Fixpoint run_repeating (hs : list http) (b : bot) (t : T)
  : bot * T * list event :=
  match hs with
  | [] => (b, t, [])
  | h :: hs' =>
      let '(b1, t1, evs1) := check_and_send_success_numbers b h t in
      let '(b2, t2, evs2) := run_repeating hs' b1 t1 in
      (b2, t2, evs1 ++ evs2)
  end.

End Repeating.

(** The id of the record is truthy and unhashable: the membership test
    of line 168 raises [TypeError] on it. *)
Definition unhashable_id (n : record) : bool :=
  truthy (dict_get n "id" PNone) && negb (hashable (dict_get n "id" PNone)).

(** An element of the page at which the filtering loop is left by an
    exception. *)
Definition raises_in_filtering (i : item) : bool :=
  match i with
  | NotObj => true
  | Obj n => unhashable_id n
  end.

(** The objects of a fetched list, in page order. *)
Definition objects_of (numbers : list item) : list record :=
  flat_map (fun i => match i with Obj n => [n] | NotObj => [] end) numbers.

(** The page a cycle works on. *)
Definition page_of (b : bot) (h : http) : list item :=
  match get_recent_success_numbers_after_start b h with
  | NumList numbers => numbers
  | NumOther _ => []
  end.

(** A call returns a value or raises. *)
Inductive outcome (A : Type) :=
| Returned (a : A)
| Raised.

Arguments Returned {A} a.
Arguments Raised {A}.




Section Startup.

(** [int(s)] belongs to the Python library; it is a parameter here,
    [None] standing for the [ValueError] it raises. *)
Variable int_of_text : string -> option Z.

(** [run], as far as the bot's own steps go: the start time is set and
    the two intervals are read from the environment with [int], in this
    order; registering the handlers and the job and the polling loop are
    calls into the library and are not part of this model. *)
Definition run (environ : gmap string string) (b : bot) : outcome bot :=
  match int_of_text (default "10"%string (environ !! "POLL_INTERVAL"%string)) with
  | None => Raised
  | Some _ =>
      match int_of_text (default "10"%string (environ !! "POLL_FIRST"%string)) with
      | None => Raised
      | Some _ => Returned (mk_bot (chat_id b) (api_key b) true (sent_numbers b))
      end
  end.


End Startup.


(** [needle] is a contiguous part of [hay]. *)
Definition occurs (needle hay : list ascii) : Prop :=
  exists pre post, hay = pre ++ needle ++ post.

(** [key] occurs in [text] in some spelling of upper and lower case. *)
Definition occurs_ignoring_case (key text : list ascii) : Prop :=
  exists pre mid post,
    text = pre ++ mid ++ post /\ map lower mid = key.

(** The texts [extract_phone_number] can return: an optional [+] and 9 to
    15 digits. *)
Definition phone_shaped (p : list ascii) : Prop :=
  exists sign ds,
    p = sign ++ ds /\ (sign = [] \/ sign = ["+"%char])
    /\ 9 <= length ds <= 15 /\ forallb is_digit ds = true.

(* ===================================================================== *)
(** ** The ledger and the polling cycle: properties                       *)
(* ===================================================================== *)

Lemma truthy_set_key (v : pyval) : truthy (set_key v) = truthy v.
Proof. destruct v as [ | [] | | | ]; reflexivity. Qed.

Lemma announced_app (e1 e2 : list event) :
  announced (e1 ++ e2) = announced e1 ++ announced e2.
Proof. unfold announced. apply flat_map_app. Qed.

(** What the filtering loop does to the ledger and to [new]: it appends a
    list [kept] of records whose ids are pairwise different, truthy and
    not in the ledger before, and adds exactly these ids. *)
Lemma filtering_spec (numbers : list item) :
  forall (sent : gset pyval) (new : list record),
  exists kept : list record,
    snd (fst (filtering numbers sent new)) = new ++ kept /\
    fst (fst (filtering numbers sent new))
      = list_to_set (map id_of kept) ∪ sent /\
    NoDup (map id_of kept) /\
    Forall (fun n => id_of n ∉ sent /\ truthy (id_of n) = true) kept.
Proof.
  induction numbers as [ | [n | ] rest IH ]; intros sent new.
  - exists []. simpl. rewrite app_nil_r. repeat split;
      [ set_solver | constructor | constructor ].
  - simpl.
    destruct (truthy (dict_get n "id" PNone)
              && negb (hashable (dict_get n "id" PNone))).
    { exists []. simpl. rewrite app_nil_r. repeat split;
        [ set_solver | constructor | constructor ]. }
    destruct (truthy (dict_get n "id" PNone)
              && negb (bool_decide (set_key (dict_get n "id" PNone) ∈ sent)))
      eqn:Hc.
    + apply andb_true_iff in Hc as [Ht Hn].
      apply negb_true_iff, bool_decide_eq_false in Hn.
      destruct (IH ({[set_key (dict_get n "id" PNone)]} ∪ sent) (new ++ [n]))
        as (kept & Hq & Hs & Hnd & Hall).
      exists (n :: kept). rewrite Hq, Hs.
      split; [ now rewrite <- app_assoc | ].
      split; [ simpl; unfold id_of at 2; set_solver | ].
      split.
      * simpl. constructor; [ | exact Hnd ].
        intros Hin. apply list_elem_of_fmap in Hin as (m & Hm & Hin).
        rewrite Forall_forall in Hall. destruct (Hall m Hin) as [Hnot _].
        apply Hnot. rewrite <- Hm. unfold id_of. set_solver.
      * constructor.
        -- split; [ exact Hn | ]. unfold id_of. now rewrite truthy_set_key.
        -- eapply Forall_impl; [ exact Hall | ].
           intros m [Hnot Htr]. split; [ set_solver | exact Htr ].
    + apply IH.
  - exists []. simpl. rewrite app_nil_r. repeat split;
      [ set_solver | constructor | constructor ].
Qed.

(** When the loop runs to its end, every truthy id of the page is in the
    ledger afterwards. *)
Lemma filtering_covers (numbers : list item) :
  forall (sent : gset pyval) (new : list record),
    snd (filtering numbers sent new) = true ->
    (sent ⊆ fst (fst (filtering numbers sent new))) /\
    forall n, Obj n ∈ numbers -> truthy (dict_get n "id" PNone) = true ->
              id_of n ∈ fst (fst (filtering numbers sent new)).
Proof.
  induction numbers as [ | [n | ] rest IH ]; intros sent new Hok.
  - simpl. split; [ set_solver | ]. intros n Hin. inversion Hin.
  - simpl in *.
    destruct (truthy (dict_get n "id" PNone)
              && negb (hashable (dict_get n "id" PNone)));
      [ discriminate Hok | ].
    destruct (truthy (dict_get n "id" PNone)
              && negb (bool_decide (set_key (dict_get n "id" PNone) ∈ sent)))
      eqn:Hc.
    + destruct (IH _ _ Hok) as [Hsub Hall].
      split; [ set_solver | ].
      intros m Hin Ht. apply elem_of_cons in Hin as [Heq | Hin].
      * injection Heq as ->. apply Hsub. unfold id_of. set_solver.
      * now apply Hall.
    + destruct (IH _ _ Hok) as [Hsub Hall].
      split; [ exact Hsub | ].
      intros m Hin Ht. apply elem_of_cons in Hin as [Heq | Hin].
      * injection Heq as ->. apply Hsub.
        rewrite Ht in Hc. simpl in Hc.
        apply negb_false_iff, bool_decide_eq_true in Hc. exact Hc.
      * now apply Hall.
  - simpl in Hok. discriminate.
Qed.

(** A page whose truthy ids are all in the ledger leaves the ledger and
    [new] as they are. *)
Lemma filtering_all_seen (numbers : list item) :
  forall (sent : gset pyval) (new : list record),
    (forall n, Obj n ∈ numbers -> truthy (dict_get n "id" PNone) = true ->
               id_of n ∈ sent) ->
    fst (filtering numbers sent new) = (sent, new).
Proof.
  induction numbers as [ | [n | ] rest IH ]; intros sent new Hseen.
  - reflexivity.
  - simpl.
    destruct (truthy (dict_get n "id" PNone)) eqn:Ht; simpl.
    + destruct (hashable (dict_get n "id" PNone)); simpl; [ | reflexivity ].
      assert (Hin : id_of n ∈ sent) by (apply Hseen; [ left | exact Ht ]).
      unfold id_of in Hin. rewrite bool_decide_eq_true_2 by exact Hin. simpl.
      apply IH. intros m Hm. apply Hseen. now right.
    + apply IH. intros m Hm. apply Hseen. now right.
  - reflexivity.
Qed.

Section CycleFacts.

Variable fromisoformat : string -> option datetime.
Variable T : Type.
Variable send_message : T -> string -> announcement -> T * bool.

Abbreviation cycle := (send_success_numbers_to_group fromisoformat T send_message).
Abbreviation deliver := (delivering fromisoformat T send_message).

(** The ledger after a cycle is the ledger after its filtering loop. *)
Lemma ledger_after_filtering (b : bot) (h : http) (t : T) :
  ledger_after fromisoformat T send_message b h t =
  match get_recent_success_numbers_after_start b h with
  | NumList numbers => fst (fst (filtering numbers (sent_numbers b) []))
  | NumOther _ => sent_numbers b
  end.
Proof.
  unfold ledger_after, send_success_numbers_to_group.
  destruct (get_recent_success_numbers_after_start b h) as [ [ | i l ] | [] ];
    try reflexivity.
  destruct (filtering (i :: l) (sent_numbers b) []) as [[sent new] ok].
  destruct ok; [ | reflexivity ].
  destruct new as [ | n new ]; [ reflexivity | ].
  destruct (deliver (with_sent b sent) (n :: new) t) as [[t' evs] ok'].
  reflexivity.
Qed.

(** The delivery loop announces a prefix of [new], in order; it announces
    all of it exactly when no call raised, and otherwise stops at the
    first record whose call raised. *)
Lemma delivering_spec (b : bot) (new : list record) :
  forall t : T,
    let '(t', evs, ok) := deliver b new t in
    if ok then announced evs = new
    else exists pre failing post t_pre evs_pre,
        new = pre ++ failing :: post /\
        deliver b pre t = (t_pre, evs_pre, true) /\
        announced evs_pre = pre /\ evs = evs_pre /\
        send_message t_pre (chat_id b)
                     (build fromisoformat failing) = (t', false).
Proof.
  induction new as [ | n new IH ]; intros t.
  - reflexivity.
  - simpl.
    destruct (send_message t (chat_id b) (build fromisoformat n))
      as [t1 [ | ]] eqn:Hs.
    + specialize (IH t1).
      destruct (deliver b new t1) as [[t2 evs] ok].
      destruct ok.
      * simpl. now rewrite IH.
      * destruct IH as (pre & failing & post & t_pre & evs_pre
                        & Hnew & Hd & Ha & He & Hf).
        exists (n :: pre), failing, post, t_pre, (Sent n (build fromisoformat n) :: evs_pre).
        simpl. rewrite Hs, Hd, Ha, Hnew, He. auto.
    + exists [], n, new, t, []. simpl. auto.
Qed.

Lemma delivering_app (b : bot) (pre rest : list record) :
  forall (t t1 : T) (e1 : list event),
    deliver b pre t = (t1, e1, true) ->
    deliver b (pre ++ rest) t =
    let '(t2, e2, ok) := deliver b rest t1 in (t2, e1 ++ e2, ok).
Proof.
  induction pre as [ | n pre IH ]; intros t t1 e1 Hd.
  - simpl in Hd. injection Hd as <- <-. simpl.
    now destruct (deliver b rest t) as [[t2 e2] ok].
  - simpl in *.
    destruct (send_message t (chat_id b) (build fromisoformat n))
      as [t0 [ | ]]; [ | discriminate ].
    destruct (deliver b pre t0) as [[t' e'] ok'] eqn:Hp.
    injection Hd as <- <- ->.
    rewrite (IH t0 t' e' Hp).
    now destruct (deliver b rest t') as [[t2 e2] ok].
Qed.

(** The events of a cycle, by the stage that ends it. *)
Lemma events_of_stages (b : bot) (h : http) (t : T) :
  events_of fromisoformat T send_message b h t =
  match get_recent_success_numbers_after_start b h with
  | NumOther truth => if truth then [LoggedError] else []
  | NumList numbers =>
      let '(sent, new, completed) := filtering numbers (sent_numbers b) [] in
      if completed then
        let '(_, evs, ok) := deliver (with_sent b sent) new t in
        evs ++ (if ok then [] else [LoggedError])
      else [LoggedError]
  end.
Proof.
  unfold events_of, send_success_numbers_to_group.
  destruct (get_recent_success_numbers_after_start b h) as [ [ | i l ] | [] ];
    try reflexivity.
  destruct (filtering (i :: l) (sent_numbers b) []) as [[sent new] ok].
  destruct ok; [ | reflexivity ].
  destruct new as [ | n new ]; [ reflexivity | ]. simpl negb. cbv iota.
  destruct (deliver (with_sent b sent) (n :: new) t) as [[t' evs] ok'].
  reflexivity.
Qed.

(** A cycle announces a prefix of what its filtering loop queued. *)
Lemma announced_prefix_of_queued (b : bot) (h : http) (t : T) :
  announced (events_of fromisoformat T send_message b h t)
    `prefix_of` queued b h.
Proof.
  rewrite events_of_stages. unfold queued.
  destruct (get_recent_success_numbers_after_start b h) as [ numbers | [] ];
    try (apply prefix_nil).
  destruct (filtering numbers (sent_numbers b) []) as [[sent new] ok].
  destruct ok; [ | apply prefix_nil ]. simpl.
  pose proof (delivering_spec (with_sent b sent) new t) as Hd.
  destruct (deliver (with_sent b sent) new t) as [[t' evs] ok'].
  rewrite announced_app. destruct ok'.
  - simpl. rewrite app_nil_r, Hd. reflexivity.
  - destruct Hd as (pre & failing & post & t_pre & evs_pre
                    & Hnew & _ & Ha & He & _).
    simpl. rewrite app_nil_r, He, Ha, Hnew. now apply prefix_app_r.
Qed.

(** C1 (as amended).  In every polling cycle the ledger grows by exactly
    the ids of the records the filtering loop queues: these ids are
    pairwise different and were not in the ledger, so each is added once,
    at the moment its record is queued and before any delivery is tried.
    Only queued records are announced.  A failed fetch adds nothing and
    announces nothing.  The ledger after the cycle is the same whatever
    the transport does: a delivery failure leaves the id marked. *)
Theorem ledger_marks_ids_when_queued (b : bot) (h : http) (t : T) :
  (ledger_after fromisoformat T send_message b h t
     = list_to_set (map id_of (queued b h)) ∪ sent_numbers b
   /\ NoDup (map id_of (queued b h))
   /\ Forall (fun n => id_of n ∉ sent_numbers b) (queued b h))
  /\ announced (events_of fromisoformat T send_message b h t)
       `prefix_of` queued b h
  /\ (fetch_failed h = true ->
      ledger_after fromisoformat T send_message b h t = sent_numbers b
      /\ events_of fromisoformat T send_message b h t = [])
  /\ (forall (T' : Type) (send' : T' -> string -> announcement -> T' * bool)
             (t' : T'),
        ledger_after fromisoformat T' send' b h t'
        = ledger_after fromisoformat T send_message b h t).
Proof.
  split; [ | split; [ apply announced_prefix_of_queued | split ] ].
  - rewrite ledger_after_filtering. unfold queued.
    destruct (get_recent_success_numbers_after_start b h) as [ numbers | tr ].
    + destruct (filtering_spec numbers (sent_numbers b) [])
        as (kept & Hq & Hs & Hnd & Hall).
      rewrite Hq, Hs. simpl. repeat split; [ exact Hnd | ].
      eapply Forall_impl; [ exact Hall | ]. now intros n [Hn _].
    + simpl. repeat split; [ set_solver | constructor | constructor ].
  - intros Hf.
    assert (Hp : get_recent_success_numbers_after_start b h = NumList []).
    { unfold get_recent_success_numbers_after_start,
        get_recent_success_numbers, read_reply.
      destruct h as [ | status numbers ]; simpl in Hf.
      - destruct (negb (started b)), (String.eqb (api_key b) EmptyString); reflexivity.
      - apply negb_true_iff in Hf. rewrite Hf.
        destruct (negb (started b)), (String.eqb (api_key b) EmptyString); reflexivity. }
    rewrite ledger_after_filtering, events_of_stages, Hp. now split.
  - intros T' send' t'.
    unfold ledger_after, send_success_numbers_to_group.
    destruct (get_recent_success_numbers_after_start b h) as [ [ | i l ] | [] ];
      try reflexivity.
    destruct (filtering (i :: l) (sent_numbers b) []) as [[sent new] ok].
    destruct ok; [ | reflexivity ].
    destruct new as [ | n new ]; [ reflexivity | ]. simpl negb. cbv iota.
    destruct (delivering fromisoformat T' send' (with_sent b sent) (n :: new) t')
      as [[u1 e1] o1].
    destruct (deliver (with_sent b sent) (n :: new) t) as [[u2 e2] o2].
    reflexivity.
Qed.

(** C4 (as amended).  In the delivery loop a call of the transport that
    raises ends the loop: the records before the failing one have been
    announced, in order, and neither the failing record nor any record
    after it is announced; the transport is left as the failing call left
    it, so no later call was made; the cycle ends with the one error line
    of its [except] clause. *)
Theorem delivery_failure_ends_the_loop
    (b : bot) (h : http) (numbers : list item) (sent : gset pyval)
    (pre post : list record) (failing : record)
    (t t_pre t_fail : T) (evs_pre : list event) :
  get_recent_success_numbers_after_start b h = NumList numbers ->
  filtering numbers (sent_numbers b) [] = (sent, pre ++ failing :: post, true) ->
  deliver (with_sent b sent) pre t = (t_pre, evs_pre, true) ->
  send_message t_pre (chat_id b) (build fromisoformat failing)
    = (t_fail, false) ->
  deliver (with_sent b sent) (pre ++ failing :: post) t
    = (t_fail, evs_pre, false)
  /\ announced evs_pre = pre
  /\ events_of fromisoformat T send_message b h t = evs_pre ++ [LoggedError]
  /\ transport_after fromisoformat T send_message b h t = t_fail.
Proof.
  intros Hp Hf Hpre Hfail.
  assert (Hd : deliver (with_sent b sent) (pre ++ failing :: post) t
               = (t_fail, evs_pre, false)).
  { rewrite (delivering_app (with_sent b sent) pre (failing :: post)
               t t_pre evs_pre Hpre).
    simpl. rewrite Hfail. now rewrite app_nil_r. }
  split; [ exact Hd | ]. split.
  - pose proof (delivering_spec (with_sent b sent) pre t) as Hs.
    rewrite Hpre in Hs. exact Hs.
  - split.
    + rewrite events_of_stages, Hp, Hf, Hd. reflexivity.
    + unfold transport_after, send_success_numbers_to_group.
      rewrite Hp.
      destruct numbers as [ | i l ].
      * simpl in Hf. injection Hf as _ Hnil. now destruct pre.
      * rewrite Hf. simpl negb. cbv iota.
        destruct (pre ++ failing :: post) as [ | n new ] eqn:Hnew;
          [ now destruct pre | ].
        now rewrite Hd.
Qed.

(** A cycle changes nothing of the bot but the ledger. *)
Lemma cycle_keeps_settings (b : bot) (h : http) (t : T) :
  fst (fst (cycle b h t))
  = with_sent b (ledger_after fromisoformat T send_message b h t).
Proof.
  unfold ledger_after, send_success_numbers_to_group.
  destruct (get_recent_success_numbers_after_start b h)
    as [ [ | i l ] | [] ]; try (now destruct b).
  destruct (filtering (i :: l) (sent_numbers b) []) as [[sent new] ok].
  destruct ok; [ | reflexivity ].
  destruct new as [ | n new ]; [ reflexivity | ]. simpl negb. cbv iota.
  destruct (deliver (with_sent b sent) (n :: new) t) as [[t' evs] ok'].
  reflexivity.
Qed.

(** C8.  When the ledger already holds every (truthy) id of the fetched
    page, the cycle announces nothing, leaves the ledger as it is and
    makes no call of the transport.  This is the case of a second cycle
    that fetches the page of the cycle before it, when the filtering loop
    of that cycle ran to its end. *)
Theorem cycle_on_seen_page_is_silent (b : bot) (h : http) (t : T) :
  ((forall numbers n,
       get_recent_success_numbers_after_start b h = NumList numbers ->
       Obj n ∈ numbers -> truthy (dict_get n "id" PNone) = true ->
       id_of n ∈ sent_numbers b) ->
   announced (events_of fromisoformat T send_message b h t) = []
   /\ ledger_after fromisoformat T send_message b h t = sent_numbers b
   /\ transport_after fromisoformat T send_message b h t = t)
  /\ (forall numbers,
        get_recent_success_numbers_after_start b h = NumList numbers ->
        snd (filtering numbers (sent_numbers b) []) = true ->
        let b1 := fst (fst (cycle b h t)) in
        let t1 := transport_after fromisoformat T send_message b h t in
        announced (events_of fromisoformat T send_message b1 h t1) = []
        /\ ledger_after fromisoformat T send_message b1 h t1
           = sent_numbers b1
        /\ transport_after fromisoformat T send_message b1 h t1 = t1).
Proof.
  assert (Hsilent : forall (b : bot) (t : T),
    (forall numbers n,
        get_recent_success_numbers_after_start b h = NumList numbers ->
        Obj n ∈ numbers -> truthy (dict_get n "id" PNone) = true ->
        id_of n ∈ sent_numbers b) ->
    announced (events_of fromisoformat T send_message b h t) = []
    /\ ledger_after fromisoformat T send_message b h t = sent_numbers b
    /\ transport_after fromisoformat T send_message b h t = t).
  { clear b t. intros b t Hseen.
    unfold events_of, ledger_after, transport_after,
      send_success_numbers_to_group.
    destruct (get_recent_success_numbers_after_start b h)
      as [ [ | i l ] | [] ]; try (repeat split; reflexivity).
    pose proof (filtering_all_seen (i :: l) (sent_numbers b) []
                  (fun n => Hseen (i :: l) n eq_refl)) as Hf.
    destruct (filtering (i :: l) (sent_numbers b) []) as [[sent new] ok].
    simpl in Hf. injection Hf as -> ->.
    destruct ok; repeat split; reflexivity. }
  split; [ apply Hsilent | ].
  intros numbers Hp Hok b1 t1. apply Hsilent.
  intros numbers' n Hp' Hin Ht.
  unfold b1 in *. rewrite cycle_keeps_settings in *.
  assert (Hsame : get_recent_success_numbers_after_start
                    (with_sent b (ledger_after fromisoformat T send_message
                                    b h t)) h
                  = get_recent_success_numbers_after_start b h)
    by reflexivity.
  rewrite Hsame, Hp in Hp'. injection Hp' as <-.
  simpl sent_numbers. rewrite ledger_after_filtering, Hp.
  now apply filtering_covers.
Qed.

(** C10.  A record is announced only if its id is truthy, every id a
    cycle adds to the ledger is truthy, and so a ledger of truthy ids is
    again a ledger of truthy ids after the cycle. *)
Theorem falsy_ids_stay_out (b : bot) (h : http) (t : T) :
  (forall n, n ∈ announced (events_of fromisoformat T send_message b h t) ->
             truthy (dict_get n "id" PNone) = true)
  /\ (forall k, k ∈ ledger_after fromisoformat T send_message b h t ->
                k ∉ sent_numbers b -> truthy k = true)
  /\ ((forall k, k ∈ sent_numbers b -> truthy k = true) ->
      forall k, k ∈ ledger_after fromisoformat T send_message b h t ->
                truthy k = true).
Proof.
  assert (Hq : Forall (fun n => truthy (id_of n) = true) (queued b h)).
  { unfold queued.
    destruct (get_recent_success_numbers_after_start b h) as [ numbers | tr ];
      [ | constructor ].
    destruct (filtering_spec numbers (sent_numbers b) [])
      as (kept & Hk & _ & _ & Hall).
    rewrite Hk. simpl. eapply Forall_impl; [ exact Hall | ].
    now intros n [_ Hn]. }
  assert (Hl : ledger_after fromisoformat T send_message b h t
               = list_to_set (map id_of (queued b h)) ∪ sent_numbers b).
  { rewrite ledger_after_filtering. unfold queued.
    destruct (get_recent_success_numbers_after_start b h) as [ numbers | tr ].
    - destruct (filtering_spec numbers (sent_numbers b) [])
        as (kept & Hk & Hs & _ & _).
      now rewrite Hk, Hs.
    - simpl. set_solver. }
  assert (Hnew : forall k,
             k ∈ ledger_after fromisoformat T send_message b h t ->
             k ∉ sent_numbers b -> truthy k = true).
  { intros k Hk Hnot. rewrite Hl in Hk.
    apply elem_of_union in Hk as [Hk | Hk]; [ | contradiction ].
    apply elem_of_list_to_set, list_elem_of_fmap in Hk as (n & -> & Hn).
    rewrite Forall_forall in Hq. now apply Hq. }
  split; [ | split; [ exact Hnew | ] ].
  - intros n Hn.
    destruct (announced_prefix_of_queued b h t) as [rest Hrest].
    rewrite Forall_forall in Hq.
    rewrite <- truthy_set_key. apply (Hq n).
    rewrite Hrest. apply elem_of_app. now left.
  - intros Hinv k Hk.
    destruct (decide (k ∈ sent_numbers b)) as [Hin | Hout].
    + now apply Hinv.
    + now apply Hnew.
Qed.

(** C3.  Filtering the page [[a; b; a]] (three records with these ids)
    against an empty ledger keeps the first record of id ["a"] and the
    record of id ["b"], in this order, and marks both ids; with a
    transport that accepts every message the cycle announces exactly
    these two records, in this order. *)
Theorem page_a_b_a (ra rb ra' : record) (b : bot) (t : T) :
  dict_get ra "id" PNone = PStr "a" ->
  dict_get rb "id" PNone = PStr "b" ->
  dict_get ra' "id" PNone = PStr "a" ->
  sent_numbers b = ∅ ->
  started b = true ->
  (forall u c a, snd (send_message u c a) = true) ->
  filtering [Obj ra; Obj rb; Obj ra'] ∅ []
    = ({[PStr "b"]} ∪ ({[PStr "a"]} ∪ ∅), [ra; rb], true)
  /\ announced (events_of fromisoformat T send_message b
                  (HttpReply 200 (NumList [Obj ra; Obj rb; Obj ra'])) t)
     = [ra; rb].
Proof.
  intros Ha Hb Ha' Hempty Hstarted Hsend.
  assert (Hf : filtering [Obj ra; Obj rb; Obj ra'] ∅ []
               = ({[PStr "b"]} ∪ ({[PStr "a"]} ∪ ∅), [ra; rb], true)).
  { simpl. rewrite Ha. simpl.
    rewrite bool_decide_eq_false_2 by set_solver. simpl.
    rewrite Hb. simpl.
    rewrite bool_decide_eq_false_2 by set_solver. simpl.
    rewrite Ha'. simpl.
    rewrite bool_decide_eq_true_2 by set_solver. reflexivity. }
  split; [ exact Hf | ].
  rewrite events_of_stages.
  unfold get_recent_success_numbers_after_start. rewrite Hstarted. simpl negb.
  cbv iota. unfold read_reply. simpl Z.eqb. cbv iota.
  rewrite Hempty, Hf.
  simpl.
  pose proof (Hsend t (chat_id b) (build fromisoformat ra)) as H1.
  destruct (send_message t (chat_id b) (build fromisoformat ra)) as [t1 o1].
  simpl in H1. subst o1.
  pose proof (Hsend t1 (chat_id b) (build fromisoformat rb)) as H2.
  destruct (send_message t1 (chat_id b) (build fromisoformat rb)) as [t2 o2].
  simpl in H2. subst o2. reflexivity.
Qed.

End CycleFacts.

(** *** Concrete runs of the cycle *)

(** C1, counterexample.  The page holds one record of id ["a"] and the
    transport raises: the cycle announces nothing and logs the error, yet
    ["a"] is in the ledger afterwards. *)
Lemma failed_delivery_leaves_id_marked :
  events_of fromisoformat_core unit refusing bot0
    (HttpReply 200 (NumList [Obj (rec_id "a")])) tt = [LoggedError]
  /\ ledger_after fromisoformat_core unit refusing bot0
       (HttpReply 200 (NumList [Obj (rec_id "a")])) tt = {[PStr "a"]}
  /\ ~ (PStr "a" ∉ ledger_after fromisoformat_core unit refusing bot0
          (HttpReply 200 (NumList [Obj (rec_id "a")])) tt).
Proof.
  assert (Hl : ledger_after fromisoformat_core unit refusing bot0
                 (HttpReply 200 (NumList [Obj (rec_id "a")])) tt
               = {[PStr "a"]}) by (vm_compute; reflexivity).
  split; [ reflexivity | split; [ exact Hl | ] ].
  rewrite Hl. intros Hn. apply Hn. now apply elem_of_singleton.
Qed.

(** C1, an instance: a fetch that fails on the page marks nothing. *)
Lemma ledger_marks_ids_when_queued_witness :
  fetch_failed (HttpReply 503 (NumList [Obj (rec_id "a")])) = true
  /\ ledger_after fromisoformat_core unit accepting bot0
       (HttpReply 503 (NumList [Obj (rec_id "a")])) tt = sent_numbers bot0
  /\ events_of fromisoformat_core unit accepting bot0
       (HttpReply 503 (NumList [Obj (rec_id "a")])) tt = [].
Proof.
  split; [ reflexivity | ].
  exact (proj1 (proj2 (proj2
           (ledger_marks_ids_when_queued fromisoformat_core unit accepting
              bot0 (HttpReply 503 (NumList [Obj (rec_id "a")])) tt)))
           eq_refl).
Defined.

(** C4, counterexample.  Three records are kept and the transport raises
    on the second call only: the first record is announced, the third is
    not, although the transport accepts the call that would follow. *)
Lemma record_after_failure_not_dispatched :
  delivering fromisoformat_core nat flaky bot0
    [rec_id "a"; rec_id "b"; rec_id "c"] 0
  = (2, [Sent (rec_id "a") (build fromisoformat_core (rec_id "a"))], false)
  /\ snd (flaky 2 (chat_id bot0) (build fromisoformat_core (rec_id "c")))
     = true
  /\ ~ In (rec_id "c")
         (announced
            (snd (fst (delivering fromisoformat_core nat flaky bot0
                         [rec_id "a"; rec_id "b"; rec_id "c"] 0)))).
Proof.
  split; [ reflexivity | split; [ reflexivity | ] ].
  simpl. intros [H | []]. discriminate H.
Qed.

(** C4, an instance with the same transport, on a page of three new
    records. *)
Lemma delivery_failure_ends_the_loop_witness :
  delivering fromisoformat_core nat flaky
    (with_sent bot0 ({[PStr "c"]} ∪ ({[PStr "b"]} ∪ ({[PStr "a"]} ∪ ∅))))
    ([rec_id "a"] ++ rec_id "b" :: [rec_id "c"]) 0
  = (2, [Sent (rec_id "a") (build fromisoformat_core (rec_id "a"))], false)
  /\ announced [Sent (rec_id "a") (build fromisoformat_core (rec_id "a"))]
     = [rec_id "a"]
  /\ events_of fromisoformat_core nat flaky bot0
       (HttpReply 200
          (NumList [Obj (rec_id "a"); Obj (rec_id "b"); Obj (rec_id "c")])) 0
     = [Sent (rec_id "a") (build fromisoformat_core (rec_id "a"))]
       ++ [LoggedError]
  /\ transport_after fromisoformat_core nat flaky bot0
       (HttpReply 200
          (NumList [Obj (rec_id "a"); Obj (rec_id "b"); Obj (rec_id "c")])) 0
     = 2.
Proof.
  apply (delivery_failure_ends_the_loop fromisoformat_core nat flaky bot0
           (HttpReply 200
              (NumList [Obj (rec_id "a"); Obj (rec_id "b"); Obj (rec_id "c")]))
           [Obj (rec_id "a"); Obj (rec_id "b"); Obj (rec_id "c")]
           ({[PStr "c"]} ∪ ({[PStr "b"]} ∪ ({[PStr "a"]} ∪ ∅)))
           [rec_id "a"] [rec_id "c"] (rec_id "b") 0 1 2).
  - reflexivity.
  - vm_compute. reflexivity.
  - reflexivity.
  - reflexivity.
Defined.

(** C8, an instance: a second cycle on the same page, right after the
    first one. *)
Lemma cycle_on_seen_page_is_silent_witness :
  announced (events_of fromisoformat_core unit accepting bot0 page_aba tt)
    = [rec_id "a"; rec_id "b"]
  /\ announced (events_of fromisoformat_core unit accepting bot1 page_aba tt)
     = []
  /\ ledger_after fromisoformat_core unit accepting bot1 page_aba tt
     = sent_numbers bot1
  /\ transport_after fromisoformat_core unit accepting bot1 page_aba tt = tt.
Proof.
  split; [ reflexivity | ].
  apply (proj1 (cycle_on_seen_page_is_silent fromisoformat_core unit
                  accepting bot1 page_aba tt)).
  intros numbers n Hp Hin _.
  injection Hp as <-.
  assert (Hs : sent_numbers bot1 = {[PStr "b"]} ∪ ({[PStr "a"]} ∪ ∅))
    by (vm_compute; reflexivity).
  rewrite Hs.
  repeat (apply elem_of_cons in Hin as [Hin | Hin];
          [ injection Hin as ->; vm_compute; set_solver | ]).
  inversion Hin.
Defined.

(** C10, an instance: the empty ledger and the page [page_falsy]. *)
Lemma falsy_ids_stay_out_witness :
  announced (events_of fromisoformat_core unit accepting bot0 page_falsy tt)
    = [rec_id "a"]
  /\ forall k,
       k ∈ ledger_after fromisoformat_core unit accepting bot0 page_falsy tt ->
       truthy k = true.
Proof.
  split; [ reflexivity | ].
  apply (proj2 (proj2 (falsy_ids_stay_out fromisoformat_core unit accepting
                         bot0 page_falsy tt))).
  intros k Hk. simpl in Hk. now apply not_elem_of_empty in Hk.
Defined.

(** C3, an instance: the three records carry other fields too. *)
Lemma page_a_b_a_witness :
  let ra := [("id"%string, PStr "a"); ("otpCode"%string, PStr "111111")] in
  let rb := [("otpCode"%string, PStr "222222"); ("id"%string, PStr "b")] in
  let ra' := [("id"%string, PStr "a"); ("otpCode"%string, PStr "333333")] in
  filtering [Obj ra; Obj rb; Obj ra'] ∅ []
    = ({[PStr "b"]} ∪ ({[PStr "a"]} ∪ ∅), [ra; rb], true)
  /\ announced (events_of fromisoformat_core unit accepting bot0
                  (HttpReply 200 (NumList [Obj ra; Obj rb; Obj ra'])) tt)
     = [ra; rb].
Proof.
  intros ra rb ra'.
  apply (page_a_b_a fromisoformat_core unit accepting ra rb ra' bot0 tt);
    reflexivity.
Defined.

(* ===================================================================== *)
(** ** Masking: properties                                                *)
(* ===================================================================== *)

Section MaskFacts.

Lemma strip_all_digits (l : list ascii) :
  forallb is_digit (strip_non_digits l) = true.
Proof.
  unfold strip_non_digits. apply forallb_forall.
  intros c Hc. now apply filter_In in Hc.
Qed.

Lemma strip_digits_id (l : list ascii) :
  forallb is_digit l = true -> strip_non_digits l = l.
Proof.
  unfold strip_non_digits. induction l as [ | c l IH ]; simpl; [ easy | ].
  intros H. apply andb_true_iff in H as [Hc Hl]. rewrite Hc. f_equal. auto.
Qed.

Lemma strip_app (a b : list ascii) :
  strip_non_digits (a ++ b) = strip_non_digits a ++ strip_non_digits b.
Proof. apply List.filter_app. Qed.

Lemma forallb_take (f : ascii -> bool) (n : nat) (l : list ascii) :
  forallb f l = true -> forallb f (take n l) = true.
Proof.
  revert n. induction l as [ | c l IH ]; intros [ | n ]; simpl; try easy.
  intros H. apply andb_true_iff in H as [Hc Hl]. rewrite Hc. simpl. auto.
Qed.

Lemma forallb_drop (f : ascii -> bool) (n : nat) (l : list ascii) :
  forallb f l = true -> forallb f (drop n l) = true.
Proof.
  revert n. induction l as [ | c l IH ]; intros [ | n ]; simpl; try easy.
  intros H. apply andb_true_iff in H as [Hc Hl]. auto.
Qed.

Lemma digits_of_string (l : list ascii) :
  digits_of (string_of_list_ascii l) = strip_non_digits l.
Proof. unfold digits_of. now rewrite list_ascii_of_string_of_list_ascii. Qed.

Lemma length_last_n {A} (n : nat) (l : list A) :
  n <= length l -> length (last_n n l) = n.
Proof. intros H. unfold last_n. rewrite length_drop. lia. Qed.

Lemma last_n_suffix {A} (n : nat) (l : list A) : last_n n l `suffix_of` l.
Proof. exists (take (length l - n) l). unfold last_n. now rewrite take_drop. Qed.

Lemma take_prefix {A} (n : nat) (l : list A) : take n l `prefix_of` l.
Proof. exists (drop n l). now rewrite take_drop. Qed.

(** The digits that remain visible in [lead ++ "*****" ++ trail]. *)
Lemma masked_digits (d : list ascii) (a : nat) :
  forallb is_digit d = true ->
  digits_of (string_of_list_ascii (take a d ++ stars ++ last_n 3 d))
  = take a d ++ last_n 3 d.
Proof.
  intros Hd. rewrite digits_of_string, !strip_app.
  rewrite (strip_digits_id (take a d)) by now apply forallb_take.
  unfold last_n.
  rewrite (strip_digits_id (drop _ d)) by now apply forallb_drop.
  reflexivity.
Qed.

Lemma nonempty_when_digits (raw : string) :
  0 < length (digits_of raw) -> String.eqb raw EmptyString = false.
Proof. destruct raw; simpl; [ lia | reflexivity ]. Qed.

Lemma masked_as_blocks (lead : nat) (digits : list ascii) :
  forallb is_digit digits = true ->
  lead <= length digits -> 3 <= length digits ->
  masked_as lead digits
    (string_of_list_ascii (take lead digits ++ stars ++ last_n 3 digits)).
Proof.
  intros Hd Hlead H3.
  split; [ reflexivity | ].
  split; [ now apply masked_digits | ].
  split.
  - rewrite masked_digits by exact Hd.
    rewrite length_app, length_take, length_last_n by lia. lia.
  - intros first mid last -> Hf Hl. do 2 f_equal.
    + subst lead. apply take_app_length.
    + f_equal. rewrite app_assoc. unfold last_n. rewrite length_app, Hl.
      replace (length (first ++ mid) + 3 - 3) with (length (first ++ mid))
        by lia.
      apply drop_app_length.
Qed.

(** C6.  For a phone string with more than 6 digits both masking
    functions keep a leading block of the stripped number (3 digits for
    [format_phone_number], 5 for [mask_number]) and its last 3 digits, and
    put the digit-free run of five stars in between: the output has no
    other digit, it is made of the two blocks alone whatever stands
    between them, and two numbers with the same blocks are masked
    alike. *)
Theorem both_masks_hide_the_middle (raw : string) :
  6 < length (digits_of raw) ->
  masked_as 3 (digits_of raw) (format_phone_number raw)
  /\ masked_as 5 (digits_of raw) (mask_number raw)
  /\ forallb (fun c => negb (is_digit c)) stars = true
  /\ (forall raw' : string,
        6 < length (digits_of raw') ->
        last_n 3 (digits_of raw') = last_n 3 (digits_of raw) ->
        (take 3 (digits_of raw') = take 3 (digits_of raw) ->
         format_phone_number raw' = format_phone_number raw)
        /\ (take 5 (digits_of raw') = take 5 (digits_of raw) ->
            mask_number raw' = mask_number raw)).
Proof.
  intros Hlen.
  pose proof (strip_all_digits (list_ascii_of_string raw)) as Hd.
  fold (digits_of raw) in Hd.
  assert (Hf : forall r, 6 < length (digits_of r) ->
            format_phone_number r
            = string_of_list_ascii
                (take 3 (digits_of r) ++ stars ++ last_n 3 (digits_of r))).
  { intros r Hr. unfold format_phone_number.
    rewrite nonempty_when_digits by lia.
    destruct (Nat.ltb_spec (length (digits_of r)) 6); [ lia | reflexivity ]. }
  assert (Hm : forall r, 6 < length (digits_of r) ->
            mask_number r
            = string_of_list_ascii
                (take 5 (digits_of r) ++ stars ++ last_n 3 (digits_of r))).
  { intros r Hr. unfold mask_number.
    destruct (Nat.ltb_spec 6 (length (digits_of r))); [ reflexivity | lia ]. }
  split; [ rewrite Hf by exact Hlen; apply masked_as_blocks; (exact Hd || lia) | ].
  split; [ rewrite Hm by exact Hlen; apply masked_as_blocks; (exact Hd || lia) | ].
  split; [ reflexivity | ].
  intros raw' Hlen' Hlast. split; intros Hfirst.
  - now rewrite (Hf raw' Hlen'), (Hf raw Hlen), Hfirst, Hlast.
  - now rewrite (Hm raw' Hlen'), (Hm raw Hlen), Hfirst, Hlast.
Qed.

(** C5 (as amended).  [format_phone_number] gives ["Unknown"] for the
    empty string, its argument as it is when fewer than 6 digits are in
    it, and otherwise the first 3 digits, five stars and the last 3
    digits.  [mask_number] gives the stripped digits when there are
    between 1 and 6 of them, ["N/A"] when there are none, and otherwise
    the first 5 digits, five stars and the last 3 digits.  So
    [format_phone_number] maps ["12345"] to itself and ["15551234567"] to
    ["155*****567"], and [mask_number] maps it to ["15551*****567"]. *)
Theorem masking_by_path (raw : string) :
  (format_phone_number EmptyString = "Unknown"%string)
  /\ (raw <> EmptyString -> length (digits_of raw) < 6 ->
      format_phone_number raw = raw)
  /\ (6 <= length (digits_of raw) ->
      format_phone_number raw
      = string_of_list_ascii
          (take 3 (digits_of raw) ++ stars ++ last_n 3 (digits_of raw))
      /\ digits_of (format_phone_number raw)
         = take 3 (digits_of raw) ++ last_n 3 (digits_of raw))
  /\ (0 < length (digits_of raw) <= 6 ->
      mask_number raw = string_of_list_ascii (digits_of raw))
  /\ (length (digits_of raw) = 0 -> mask_number raw = "N/A"%string)
  /\ (6 < length (digits_of raw) ->
      mask_number raw
      = string_of_list_ascii
          (take 5 (digits_of raw) ++ stars ++ last_n 3 (digits_of raw))
      /\ digits_of (mask_number raw)
         = take 5 (digits_of raw) ++ last_n 3 (digits_of raw))
  /\ format_phone_number "12345" = "12345"%string
  /\ format_phone_number "15551234567" = "155*****567"%string
  /\ mask_number "12345" = "12345"%string
  /\ mask_number "15551234567" = "15551*****567"%string.
Proof.
  pose proof (strip_all_digits (list_ascii_of_string raw)) as Hd.
  fold (digits_of raw) in Hd.
  repeat split; try reflexivity.
  - intros Hne Hlt. unfold format_phone_number.
    destruct raw; [ congruence | ]. simpl String.eqb.
    destruct (Nat.ltb_spec (length (digits_of (String a raw))) 6); [ easy | lia ].
  - unfold format_phone_number.
    rewrite nonempty_when_digits by lia.
    destruct (Nat.ltb_spec (length (digits_of raw)) 6); [ lia | reflexivity ].
  - unfold format_phone_number.
    rewrite nonempty_when_digits by lia.
    destruct (Nat.ltb_spec (length (digits_of raw)) 6); [ lia | ].
    now apply masked_digits.
  - intros [Hpos Hle]. unfold mask_number.
    destruct (Nat.ltb_spec 6 (length (digits_of raw))); [ lia | ].
    destruct (digits_of raw); [ simpl in Hpos; lia | reflexivity ].
  - intros H0. unfold mask_number.
    destruct (Nat.ltb_spec 6 (length (digits_of raw))); [ lia | ].
    destruct (digits_of raw); [ reflexivity | discriminate H0 ].
  - unfold mask_number.
    destruct (Nat.ltb_spec 6 (length (digits_of raw))); [ reflexivity | lia ].
  - unfold mask_number.
    destruct (Nat.ltb_spec 6 (length (digits_of raw))); [ | lia ].
    now apply masked_digits.
Qed.

End MaskFacts.

(** C5, counterexample.  Neither function is the masking function of the
    claim: [format_phone_number] masks a number of exactly 6 digits and
    returns a short number with its separators, and [mask_number] shows
    the first five digits of ["15551234567"]. *)
Lemma masking_differs_from_claim :
  length (digits_of "123456") = 6
  /\ format_phone_number "123456" = "123*****456"%string
  /\ format_phone_number "123456" <> string_of_list_ascii (digits_of "123456")
  /\ format_phone_number "12-34" = "12-34"%string
  /\ format_phone_number "12-34" <> string_of_list_ascii (digits_of "12-34")
  /\ mask_number "15551234567" = "15551*****567"%string
  /\ mask_number "15551234567" <> "155*****567"%string.
Proof. repeat split; try reflexivity; discriminate. Qed.

(** C5, an instance: a number written with separators. *)
Lemma masking_by_path_witness :
  format_phone_number "+1 (555) 123-4567" = "155*****567"%string
  /\ mask_number "+1 (555) 123-4567" = "15551*****567"%string
  /\ format_phone_number "+1-23" = "+1-23"%string
  /\ mask_number "+1-23" = "123"%string.
Proof.
  pose proof (masking_by_path "+1 (555) 123-4567") as H.
  pose proof (masking_by_path "+1-23") as H'.
  split; [ apply H; vm_compute; lia | ].
  split; [ apply H; vm_compute; lia | ].
  split; [ apply H'; [ discriminate | vm_compute; lia ] | ].
  apply H'; vm_compute; lia.
Defined.

(** C6, an instance: eleven digits. *)
Lemma both_masks_hide_the_middle_witness :
  6 < length (digits_of "+1 (555) 123-4567")
  /\ masked_as 3 (digits_of "+1 (555) 123-4567")
               (format_phone_number "+1 (555) 123-4567")
  /\ masked_as 5 (digits_of "+1 (555) 123-4567")
               (mask_number "+1 (555) 123-4567")
  /\ format_phone_number "+1 (555) 999-0567"
     = format_phone_number "+1 (555) 123-4567".
Proof.
  assert (H : 6 < length (digits_of "+1 (555) 123-4567"))
    by (vm_compute; lia).
  split; [ exact H | ].
  split; [ apply (both_masks_hide_the_middle "+1 (555) 123-4567" H) | ].
  split; [ apply (both_masks_hide_the_middle "+1 (555) 123-4567" H) | ].
  refine (proj1 (proj2 (proj2 (proj2
            (both_masks_hide_the_middle "+1 (555) 123-4567" H)))
            "+1 (555) 999-0567" _ _) _);
    [ vm_compute; lia | reflexivity | reflexivity ].
Defined.

(* ===================================================================== *)
(** ** Time rendering: properties                                         *)
(* ===================================================================== *)

Lemma chars_of_append (a b : string) :
  list_ascii_of_string (a ++ b)%string
  = list_ascii_of_string a ++ list_ascii_of_string b.
Proof. induction a as [ | c a IH ]; simpl; [ reflexivity | now rewrite IH ]. Qed.

Lemma string_of_app (a b : list ascii) :
  string_of_list_ascii (a ++ b)
  = (string_of_list_ascii a ++ string_of_list_ascii b)%string.
Proof. induction a as [ | c a IH ]; simpl; [ reflexivity | now rewrite IH ]. Qed.

(** A trailing [Z] becomes the offset [+00:00]. *)
Lemma replace_Z_trailing (s : string) :
  replace_Z (s ++ "Z")%string = (replace_Z s ++ "+00:00")%string.
Proof.
  unfold replace_Z.
  now rewrite chars_of_append, flat_map_app, string_of_app.
Qed.

Local Open Scope Z_scope.

Lemma year_text_four (y : Z) : 1000 <= y -> year_text y = pad4 y.
Proof.
  intros H. unfold year_text.
  destruct (Z.ltb_spec y 10); [ lia | ].
  destruct (Z.ltb_spec y 100); [ lia | ].
  destruct (Z.ltb_spec y 1000); [ lia | reflexivity ].
Qed.

Lemma strftime_length (dt : datetime) :
  1000 <= year dt -> String.length (strftime dt) = 22%nat.
Proof.
  intros H. unfold strftime, am_pm. rewrite year_text_four by exact H.
  destruct (hour dt <? 12); reflexivity.
Qed.

Lemma digit_val_char (k : Z) :
  0 <= k <= 9 -> digit_val (digit_char k) = Some k.
Proof.
  intros H.
  assert (Hk : k = 0 \/ k = 1 \/ k = 2 \/ k = 3 \/ k = 4 \/ k = 5 \/ k = 6
               \/ k = 7 \/ k = 8 \/ k = 9) by lia.
  repeat (destruct Hk as [ -> | Hk ]; [ reflexivity | ]).
  subst k. reflexivity.
Qed.

Lemma num2_digits (n : Z) :
  0 <= n <= 99 ->
  num2 (digit_char (n / 10 mod 10)) (digit_char (n mod 10)) = Some n.
Proof.
  intros H. unfold num2.
  rewrite !digit_val_char by (Z.div_mod_to_equations; lia).
  f_equal. Z.div_mod_to_equations. lia.
Qed.

Lemma num4_digits (n : Z) :
  0 <= n <= 9999 ->
  num4 (digit_char (n / 1000 mod 10)) (digit_char (n / 100 mod 10))
       (digit_char (n / 10 mod 10)) (digit_char (n mod 10)) = Some n.
Proof.
  intros H. unfold num4, num2.
  rewrite !digit_val_char by (Z.div_mod_to_equations; lia).
  f_equal. Z.div_mod_to_equations. lia.
Qed.

Lemma days_in_month_bounds (y m : Z) : 28 <= days_in_month y m <= 31.
Proof.
  unfold days_in_month.
  destruct (m =? 2); [ destruct (is_leap y); lia | ].
  destruct ((m =? 4) || (m =? 6) || (m =? 9) || (m =? 11)); lia.
Qed.

Lemma days_before_month_next (y m : Z) :
  1 <= m <= 11 ->
  days_before_month y (m + 1) = days_before_month y m + days_in_month y m.
Proof.
  intros H.
  assert (Hm : m = 1 \/ m = 2 \/ m = 3 \/ m = 4 \/ m = 5 \/ m = 6 \/ m = 7
               \/ m = 8 \/ m = 9 \/ m = 10 \/ m = 11) by lia.
  unfold days_before_month, days_in_month.
  repeat (destruct Hm as [ -> | Hm ];
          [ simpl; destruct (is_leap y); reflexivity | ]).
  subst m. simpl. destruct (is_leap y); reflexivity.
Qed.

Lemma days_before_year_next (y : Z) :
  days_before_year (y + 1)
  = days_before_year y + 365 + (if is_leap y then 1 else 0).
Proof.
  unfold days_before_year, is_leap.
  replace (y + 1 - 1) with y by lia.
  destruct (Z.eqb_spec (y mod 4) 0), (Z.eqb_spec (y mod 100) 0),
    (Z.eqb_spec (y mod 400) 0); simpl; Z.div_mod_to_equations; lia.
Qed.

(** Adding 6 hours to a date and time: the result is a date and time 6
    hours later on the time scale, with the same minute and second, and
    there is none exactly in the last 6 hours of year 9999. *)
Lemma plus_six_hours (dt : datetime) :
  valid_datetime dt ->
  (plus_hours 6 dt = None <->
   year dt = 9999 /\ month dt = 12 /\ day dt = 31 /\ 18 <= hour dt)
  /\ forall bd, plus_hours 6 dt = Some bd ->
       valid_datetime bd
       /\ hours_since_start bd = hours_since_start dt + 6
       /\ minute bd = minute dt /\ second bd = second dt.
Proof.
  destruct dt as [y m d h n sec].
  unfold valid_datetime, plus_hours, hours_since_start. simpl.
  intros (Hy & Hm & Hd & Hh & Hn & Hs).
  pose proof (days_in_month_bounds y m) as Hdim.
  destruct (Z.ltb_spec (h + 6) 24) as [ Hlt | Hge ].
  { split; [ split; [ discriminate | lia ] | ].
    intros bd [= <-]. simpl. repeat split; lia. }
  destruct (Z.leb_spec (d + 1) (days_in_month y m)) as [ Hle | Hgt ].
  { split.
    - split; [ discriminate | ]. intros (_ & -> & -> & _).
      unfold days_in_month in Hle. simpl in Hle. lia.
    - intros bd [= <-]. simpl. repeat split; lia. }
  destruct (Z.ltb_spec m 12) as [ Hm12 | Hm12 ].
  { split; [ split; [ discriminate | lia ] | ].
    intros bd [= <-]. simpl.
    pose proof (days_in_month_bounds y (m + 1)) as Hdim'.
    rewrite days_before_month_next by lia.
    repeat split; lia. }
  assert (m = 12) by lia. subst m.
  assert (Hd31 : d = 31)
    by (unfold days_in_month in *; simpl in *; lia).
  subst d.
  destruct (Z.ltb_spec y 9999) as [ Hy9 | Hy9 ].
  { split; [ split; [ discriminate | lia ] | ].
    intros bd [= <-]. simpl.
    rewrite days_before_year_next.
    unfold days_before_month, days_in_month. simpl.
    destruct (is_leap y), (is_leap (y + 1)); repeat split; lia. }
  split; [ split; [ intros _; repeat split; lia | reflexivity ] | ].
  discriminate.
Qed.

(** Reading a rendered time back gives the date and time rendered. *)
Lemma read_rendered_strftime (bd : datetime) :
  valid_datetime bd -> 1000 <= year bd ->
  read_rendered (strftime bd) = Some bd.
Proof.
  destruct bd as [y m d h n sec].
  unfold valid_datetime. simpl.
  intros (Hy & Hm & Hd & Hh & Hn & Hs) Hy4.
  pose proof (days_in_month_bounds y m) as Hdim.
  unfold read_rendered, strftime. simpl year. simpl month. simpl day.
  simpl hour. simpl minute. simpl second.
  rewrite list_ascii_of_string_of_list_ascii, year_text_four by exact Hy4.
  assert (H12 : 0 <= hour12 h <= 99).
  { unfold hour12. destruct (Z.eqb_spec (h mod 12) 0);
      Z.div_mod_to_equations; lia. }
  unfold am_pm, pad2, pad4.
  destruct (Z.ltb_spec h 12) as [ Ham | Hpm ];
    cbn [list_ascii_of_string app];
    cbn [Ascii.eqb Bool.eqb andb orb];
    rewrite !num2_digits, num4_digits by lia;
    do 2 f_equal;
    unfold hour12; destruct (Z.eqb_spec (h mod 12) 0);
    Z.div_mod_to_equations; lia.
Qed.

Local Close Scope Z_scope.

Section RenderingFacts.

Variable fromisoformat : string -> option datetime.

(** C7 (as amended).  For a [receivedAt] string (other than the empty
    string and ["N/A"], which are shown as they are) the rendered time is
    obtained by reading the string with every [Z] replaced by [+00:00],
    so that a trailing [Z] is accepted, adding 6 hours and writing the
    result as [DD-MM-YYYY hh:mm:ss AM/PM].  The time written is the time
    read plus exactly 6 hours, and for the years from 1000 on the text
    has 22 characters and reads back as that time.  When the string
    cannot be read, or the shifted time would leave year 9999, which
    happens exactly in the last 6 hours of that year, the string itself
    is the result; the computation is total.  With a reader that reads
    ["2024-01-01T10:00:00+00:00"] as that date and time the string
    ["2024-01-01T10:00:00Z"] gives ["01-01-2024 04:00:00 PM"], and with a
    reader that rejects ["not-a-date"] that string is returned. *)
Theorem formatted_time_renders_or_passes_through (s : string) :
  (forall dt bd_time,
      s <> EmptyString -> s <> "N/A"%string ->
      fromisoformat (replace_Z s) = Some dt ->
      plus_hours 6 dt = Some bd_time ->
      formatted_time fromisoformat (PStr s) = PStr (strftime bd_time))
  /\ (fromisoformat (replace_Z s) = None ->
      formatted_time fromisoformat (PStr s) = PStr s)
  /\ (forall dt,
        fromisoformat (replace_Z s) = Some dt -> plus_hours 6 dt = None ->
        formatted_time fromisoformat (PStr s) = PStr s)
  /\ replace_Z (s ++ "Z")%string = (replace_Z s ++ "+00:00")%string
  /\ (forall dt, valid_datetime dt ->
        (plus_hours 6 dt = None <->
         year dt = 9999%Z /\ month dt = 12%Z /\ day dt = 31%Z
         /\ (18 <= hour dt)%Z)
        /\ forall bd_time, plus_hours 6 dt = Some bd_time ->
             valid_datetime bd_time
             /\ hours_since_start bd_time = (hours_since_start dt + 6)%Z
             /\ minute bd_time = minute dt /\ second bd_time = second dt)
  /\ (forall bd_time, valid_datetime bd_time -> (1000 <= year bd_time)%Z ->
        read_rendered (strftime bd_time) = Some bd_time
        /\ String.length (strftime bd_time) = 22)
  /\ (fromisoformat "2024-01-01T10:00:00+00:00"
        = Some (mk_datetime 2024 1 1 10 0 0) ->
      formatted_time fromisoformat (PStr "2024-01-01T10:00:00Z")
        = PStr "01-01-2024 04:00:00 PM")
  /\ (fromisoformat "not-a-date" = None ->
      formatted_time fromisoformat (PStr "not-a-date") = PStr "not-a-date").
Proof.
  split; [ | split; [ | split; [ | split; [ | split; [ | split;
    [ | split ] ] ] ] ] ].
  - intros dt bd_time Hs Hna Hp Hshift.
    unfold formatted_time.
    assert (He : String.eqb s EmptyString = false) by now apply String.eqb_neq.
    assert (Hn : String.eqb s "N/A" = false) by now apply String.eqb_neq.
    simpl truthy. rewrite He, Hn. simpl. now rewrite Hp, Hshift.
  - intros Hp. unfold formatted_time. rewrite Hp.
    now destruct (truthy (PStr s) && negb (String.eqb s "N/A")).
  - intros dt Hp Ho. unfold formatted_time. rewrite Hp, Ho.
    now destruct (truthy (PStr s) && negb (String.eqb s "N/A")).
  - apply replace_Z_trailing.
  - intros dt Hv. exact (plus_six_hours dt Hv).
  - intros bd_time Hv Hy. split.
    + now apply read_rendered_strftime.
    + now apply strftime_length.
  - intros Hp. unfold formatted_time. simpl.
    change (replace_Z "2024-01-01T10:00:00Z")
      with "2024-01-01T10:00:00+00:00"%string.
    rewrite Hp. reflexivity.
  - intros Hp. unfold formatted_time. simpl.
    change (replace_Z "not-a-date") with "not-a-date"%string.
    now rewrite Hp.
Qed.

End RenderingFacts.

(** C7, counterexample.  The last evening of year 9999 is read as a date
    and time, yet the string is returned as it is, not rendered; and a
    time of year 999 is rendered with a year of three digits, in 21
    characters. *)
Lemma time_not_always_rendered :
  fromisoformat_core (replace_Z "9999-12-31T18:00:00Z")
    = Some (mk_datetime 9999 12 31 18 0 0)
  /\ formatted_time fromisoformat_core (PStr "9999-12-31T18:00:00Z")
     = PStr "9999-12-31T18:00:00Z"
  /\ fromisoformat_core (replace_Z "0999-06-15T10:00:00Z")
     = Some (mk_datetime 999 6 15 10 0 0)
  /\ formatted_time fromisoformat_core (PStr "0999-06-15T10:00:00Z")
     = PStr "15-06-999 04:00:00 PM"
  /\ String.length "15-06-999 04:00:00 PM" = 21.
Proof. repeat split. Qed.

(** C7, an instance with the reference reader: the two strings of the
    claim, a time that crosses midnight at the end of a leap February, and
    the last evening of year 9999. *)
Lemma formatted_time_renders_or_passes_through_witness :
  formatted_time fromisoformat_core (PStr "2024-01-01T10:00:00Z")
    = PStr "01-01-2024 04:00:00 PM"
  /\ formatted_time fromisoformat_core (PStr "not-a-date")
     = PStr "not-a-date"
  /\ formatted_time fromisoformat_core (PStr "2024-02-29T19:30:05Z")
     = PStr "01-03-2024 01:30:05 AM"
  /\ formatted_time fromisoformat_core (PStr "9999-12-31T18:00:00Z")
     = PStr "9999-12-31T18:00:00Z".
Proof.
  split;
    [ apply (formatted_time_renders_or_passes_through fromisoformat_core
               "2024-01-01T10:00:00Z"); reflexivity | ].
  split;
    [ apply (formatted_time_renders_or_passes_through fromisoformat_core
               "not-a-date"); reflexivity | ].
  split.
  - refine (proj1 (formatted_time_renders_or_passes_through
                     fromisoformat_core "2024-02-29T19:30:05Z")
              (mk_datetime 2024 2 29 19 30 5)
              (mk_datetime 2024 3 1 1 30 5) _ _ _ _);
      [ discriminate | discriminate | reflexivity | reflexivity ].
  - apply (proj1 (proj2 (proj2
             (formatted_time_renders_or_passes_through fromisoformat_core
                "9999-12-31T18:00:00Z")))
             (mk_datetime 9999 12 31 18 0 0)); reflexivity.
Defined.

(* ===================================================================== *)
(** ** OTP extraction: the text a pattern matches                         *)
(* ===================================================================== *)

(** *** Characters *)

Lemma forall_ascii (P : ascii -> bool) :
  forallb P all_ascii = true -> forall c, P c = true.
Proof.
  intros H c. rewrite forallb_forall in H. apply H.
  unfold all_ascii. rewrite <- (ascii_nat_embedding c).
  apply in_map, in_seq. pose proof (nat_ascii_bounded c). lia.
Qed.

Lemma digit_is_alnum (c : ascii) : is_digit c = true -> alnum c = true.
Proof. unfold alnum. now intros ->. Qed.

Lemma alnum_is_word (c : ascii) : alnum c = true -> is_word c = true.
Proof.
  revert c. generalize (forall_ascii (fun c => implb (alnum c) (is_word c))).
  intros H c Hc. specialize (H eq_refl c). now rewrite Hc in H.
Qed.

Lemma digit_is_word (c : ascii) : is_digit c = true -> is_word c = true.
Proof. intros H. now apply alnum_is_word, digit_is_alnum. Qed.

Lemma digit_not_separator (c : ascii) :
  is_digit c = true -> separator c = false.
Proof.
  revert c.
  generalize (forall_ascii (fun c => implb (is_digit c) (negb (separator c)))).
  intros H c Hc. specialize (H eq_refl c). rewrite Hc in H.
  now apply negb_true_iff in H.
Qed.

(** [[A-Z0-9]] under [re.IGNORECASE]. *)
Lemma class_alnum (c : ascii) :
  cset_mem true (Union (Range "A" "Z") (Range "0" "9")) c = alnum c.
Proof.
  revert c.
  generalize (forall_ascii
    (fun c => Bool.eqb (cset_mem true (Union (Range "A" "Z") (Range "0" "9")) c)
                       (alnum c))).
  intros H c. specialize (H eq_refl c). now apply Bool.eqb_prop in H.
Qed.

(** [[:\s]] under [re.IGNORECASE]. *)
Lemma class_separator (c : ascii) :
  cset_mem true (Union (Single ":") Space) c = separator c.
Proof.
  revert c.
  generalize (forall_ascii
    (fun c => Bool.eqb (cset_mem true (Union (Single ":") Space) c)
                       (separator c))).
  intros H c. specialize (H eq_refl c). now apply Bool.eqb_prop in H.
Qed.

Lemma eqb_icase_lower (a b : ascii) :
  eqb_icase true a b = true <-> lower a = lower b.
Proof. unfold eqb_icase. apply Ascii.eqb_eq. Qed.

(** *** Runs and positions *)

Lemma head_drop {A} (k : nat) (s : list A) : head (drop k s) = nth_error s k.
Proof.
  revert s. induction k as [ | k IH ]; intros [ | c s ]; simpl; auto.
Qed.

Lemma drop_next {A} (k : nat) (s : list A) (x : A) (t : list A) :
  drop k s = x :: t -> drop (S k) s = t.
Proof.
  revert s. induction k as [ | k IH ]; intros [ | c s ]; simpl;
    try discriminate.
  - now intros [= _ ->].
  - intros H. now apply IH in H.
Qed.

Lemma run_length_nth (f : ascii -> bool) (s : list ascii) (k : nat) :
  k < run_length f s -> exists c, nth_error s k = Some c /\ f c = true.
Proof.
  revert k. induction s as [ | c s IH ]; intros k Hk; simpl in *; [ lia | ].
  destruct (f c) eqn:Hc; [ | lia ].
  destruct k as [ | k ]; [ now exists c | ].
  simpl. apply IH. lia.
Qed.

Lemma run_length_le (f : ascii -> bool) (s : list ascii) :
  run_length f s <= length s.
Proof.
  induction s as [ | x s IH ]; simpl; [ lia | ]. destruct (f x); simpl; lia.
Qed.

Lemma run_length_take (f : ascii -> bool) (s : list ascii) (k : nat) :
  k <= run_length f s -> forallb f (take k s) = true.
Proof.
  revert k. induction s as [ | x s IH ]; intros [ | k ] Hk; simpl in *;
    try reflexivity; try lia.
  destruct (f x) eqn:Hx; [ | lia ]. simpl. apply IH. lia.
Qed.

Lemma run_length_app (f : ascii -> bool) (a b : list ascii) :
  forallb f a = true -> run_length f (a ++ b) = length a + run_length f b.
Proof.
  induction a as [ | x a IH ]; simpl; [ reflexivity | ].
  intros H. apply andb_true_iff in H as [Hx Ha]. rewrite Hx. f_equal. auto.
Qed.

Lemma run_length_head (f : ascii -> bool) (s : list ascii) :
  match head s with Some c => f c = false | None => True end ->
  run_length f s = 0.
Proof. destruct s as [ | c s ]; simpl; [ easy | ]. now intros ->. Qed.

Lemma before_cons (prev : option ascii) (c : ascii) (a : list ascii) :
  before prev (c :: a) = before (Some c) a.
Proof.
  unfold before. destruct a as [ | x a ]; [ reflexivity | ].
  rewrite last_cons. now destruct (last (x :: a)).
Qed.

Lemma before_none (a : list ascii) : before None a = last a.
Proof. unfold before. now destruct (last a). Qed.

(** *** The greedy repeat *)

Lemma first_down_top {A} (f : nat -> option A) (lo d : nat) (r : A) :
  f (lo + d) = Some r -> first_down f lo d = Some r.
Proof. intros H. destruct d; simpl; now rewrite H. Qed.

Lemma first_down_some {A} (f : nat -> option A) (lo d : nat) (r : A) :
  first_down f lo d = Some r ->
  exists k, lo <= k <= lo + d /\ f k = Some r
            /\ forall j, k < j <= lo + d -> f j = None.
Proof.
  induction d as [ | d IH ]; simpl.
  - destruct (f (lo + 0)) eqn:Hf; [ | discriminate ].
    intros [= ->]. exists (lo + 0).
    split; [ lia | ]. split; [ exact Hf | ]. intros j Hj. lia.
  - destruct (f (lo + S d)) eqn:Hf.
    + intros [= ->]. exists (lo + S d).
      split; [ lia | ]. split; [ exact Hf | ]. intros j Hj. lia.
    + intros H. destruct (IH H) as (k & Hk & Hfk & Hab).
      exists k. split; [ lia | ]. split; [ exact Hfk | ].
      intros j Hj. destruct (Nat.eq_dec j (lo + S d)) as [ -> | Hne ];
        [ exact Hf | apply Hab; lia ].
Qed.

(** *** The scan *)

Section Scan.

Variable ic : bool.
Variable p : regex.

Lemma scan_nonempty_inv (s : list ascii) :
  forall (skip : nat) (prev : option ascii),
    scan ic p skip prev s <> [] ->
    exists a b r,
      s = a ++ b /\ match_here ic p (before prev a) b 0 None None = Some r.
Proof.
  induction s as [ | c s IH ]; intros skip prev Hne.
  - destruct skip as [ | k ]; simpl in Hne; [ | congruence ].
    destruct (match_here ic p prev [] 0 None None) as [ r | ] eqn:Hm;
      [ | congruence ].
    now exists [], [], r.
  - destruct skip as [ | k ]; simpl in Hne.
    + destruct (match_here ic p prev (c :: s) 0 None None) as [ r | ] eqn:Hm.
      * now exists [], (c :: s), r.
      * destruct (IH 0 (Some c) Hne) as (a & b & r & -> & Hr).
        exists (c :: a), b, r. now rewrite before_cons.
    + destruct (IH k (Some c) Hne) as (a & b & r & -> & Hr).
      exists (c :: a), b, r. now rewrite before_cons.
Qed.

Lemma scan_found (a : list ascii) :
  forall (prev : option ascii) (b : list ascii) (r : mres),
    match_here ic p (before prev a) b 0 None None = Some r ->
    scan ic p 0 prev (a ++ b) <> [].
Proof.
  induction a as [ | c a IH ]; intros prev b r Hm.
  - simpl app. unfold before in Hm. simpl in Hm.
    destruct b; simpl; now rewrite Hm.
  - simpl.
    destruct (match_here ic p prev (c :: a ++ b) 0 None None); [ easy | ].
    apply (IH (Some c) b r). now rewrite <- (before_cons prev).
Qed.

Lemma scan_none_prefix (pre : list ascii) :
  forall (prev : option ascii) (rest : list ascii),
    (forall a b, pre = a ++ b -> b <> [] ->
                 match_here ic p (before prev a) (b ++ rest) 0 None None
                 = None) ->
    scan ic p 0 prev (pre ++ rest) = scan ic p 0 (before prev pre) rest.
Proof.
  induction pre as [ | c pre IH ]; intros prev rest Hno.
  - reflexivity.
  - pose proof (Hno [] (c :: pre) eq_refl) as H0.
    unfold before in H0. simpl in H0. simpl.
    rewrite H0 by discriminate.
    rewrite before_cons. apply IH.
    intros a b -> Hb. rewrite <- (before_cons prev). now apply Hno.
Qed.

End Scan.

Lemma first_match_none (ps : list regex) (text : list ascii) :
  first_match ps text = None <->
  forall p, In p ps -> findall true p text = [].
Proof.
  induction ps as [ | p ps IH ]; simpl.
  - split; [ intros _ q [] | reflexivity ].
  - destruct (findall true p text) as [ | x l ] eqn:Hf.
    + rewrite IH. split.
      * intros H q [ <- | Hq ]; [ exact Hf | now apply H ].
      * intros H q Hq. apply H. now right.
    + split; [ discriminate | ].
      intros H. specialize (H p (or_introl eq_refl)). congruence.
Qed.

(** *** The two bare patterns *)

Lemma run_length_ext (f g : ascii -> bool) (s : list ascii) :
  (forall c, f c = g c) -> run_length f s = run_length g s.
Proof.
  intros H. induction s as [ | c s IH ]; simpl; [ reflexivity | ].
  rewrite H, IH. reflexivity.
Qed.

Section Token.

Variable cs : cset.
Variable g : ascii -> bool.
Hypothesis cs_is_g : forall c, cset_mem true cs c = g c.
Hypothesis g_word : forall c, g c = true -> is_word c = true.

Lemma token_unfold (prev : option ascii) (s : list ascii) :
  match_here true [Bound; Rep cs 4 (Some 8); Bound] prev s 0 None None =
  if at_boundary prev s then
    if Nat.min 8 (run_length (cset_mem true cs) s) <? 4 then None
    else first_down
           (fun k => if at_boundary (prev_after prev s k) (drop k s)
                     then Some (k, None) else None)
           4 (Nat.min 8 (run_length (cset_mem true cs) s) - 4)
  else None.
Proof. reflexivity. Qed.

Lemma boundary_inside_run (prev : option ascii) (s : list ascii) (k : nat) :
  0 < k <= run_length g s ->
  at_boundary (prev_after prev s k) (drop k s)
  = negb (opt_word (nth_error s k)).
Proof.
  intros [Hpos Hle]. destruct k as [ | k ]; [ lia | ].
  destruct (run_length_nth g s k) as (c & Hc & Hg); [ lia | ].
  unfold at_boundary, prev_after. rewrite Hc, head_drop. simpl.
  now rewrite (g_word c Hg).
Qed.

(** A match of [\b X{4,8} \b] takes the whole run of class characters at
    the position, which has 4 to 8 characters and stands alone. *)
Lemma token_match_inv (prev : option ascii) (s : list ascii) (r : mres) :
  match_here true [Bound; Rep cs 4 (Some 8); Bound] prev s 0 None None
    = Some r ->
  r = (run_length g s, None)
  /\ 4 <= run_length g s <= 8
  /\ opt_word prev = false
  /\ opt_word (head (drop (run_length g s) s)) = false.
Proof.
  rewrite token_unfold, (run_length_ext _ g s cs_is_g).
  destruct (at_boundary prev s) eqn:Hb; [ | discriminate ].
  destruct (Nat.ltb_spec (Nat.min 8 (run_length g s)) 4) as [ | Hmin ];
    [ discriminate | ].
  intros Hf. apply first_down_some in Hf as (k & Hk & Hat & _).
  destruct (at_boundary (prev_after prev s k) (drop k s)) eqn:Hbk;
    [ | discriminate ].
  injection Hat as <-.
  rewrite boundary_inside_run in Hbk by lia.
  apply negb_true_iff in Hbk.
  assert (Hrun : k = run_length g s).
  { destruct (Nat.eq_dec k (run_length g s)) as [ | Hne ]; [ assumption | ].
    destruct (run_length_nth g s k) as (c & Hc & Hg); [ lia | ].
    rewrite Hc in Hbk. simpl in Hbk. rewrite (g_word c Hg) in Hbk.
    discriminate. }
  subst k. split; [ reflexivity | ]. split; [ lia | ].
  rewrite head_drop. split; [ | exact Hbk ].
  destruct (run_length_nth g s 0) as (c & Hc & Hg); [ lia | ].
  unfold at_boundary in Hb. destruct s as [ | x s ]; [ discriminate | ].
  simpl in Hc. injection Hc as ->. simpl in Hb.
  rewrite (g_word c Hg) in Hb. now destruct (opt_word prev).
Qed.

Lemma token_match (prev : option ascii) (s : list ascii) :
  4 <= run_length g s <= 8 ->
  opt_word prev = false ->
  opt_word (head (drop (run_length g s) s)) = false ->
  match_here true [Bound; Rep cs 4 (Some 8); Bound] prev s 0 None None
    = Some (run_length g s, None).
Proof.
  intros Hlen Hprev Hnext.
  rewrite token_unfold, (run_length_ext _ g s cs_is_g).
  destruct (run_length_nth g s 0) as (c & Hc & Hg); [ lia | ].
  assert (Hb : at_boundary prev s = true).
  { unfold at_boundary. destruct s as [ | x s ]; [ discriminate | ].
    simpl in Hc. injection Hc as ->. simpl.
    now rewrite Hprev, (g_word c Hg). }
  rewrite Hb.
  replace (Nat.min 8 (run_length g s)) with (run_length g s) by lia.
  destruct (Nat.ltb_spec (run_length g s) 4) as [ | _ ]; [ lia | ].
  apply first_down_top.
  replace (4 + (run_length g s - 4)) with (run_length g s) by lia.
  rewrite boundary_inside_run by lia.
  rewrite <- head_drop, Hnext. reflexivity.
Qed.

(** A standalone token in the text is where the pattern matches. *)
Lemma token_match_at (prev : option ascii) (tok post : list ascii) :
  4 <= length tok <= 8 -> forallb g tok = true ->
  opt_word prev = false -> opt_word (head post) = false ->
  match_here true [Bound; Rep cs 4 (Some 8); Bound] prev (tok ++ post)
             0 None None
    = Some (length tok, None).
Proof.
  intros Hlen Hall Hprev Hpost.
  assert (Hrun : run_length g (tok ++ post) = length tok).
  { rewrite run_length_app by exact Hall.
    rewrite (run_length_head g post); [ lia | ].
    destruct post as [ | c post ]; simpl in *; [ exact I | ].
    destruct (g c) eqn:Hg; [ | reflexivity ].
    rewrite (g_word c Hg) in Hpost. discriminate. }
  rewrite <- Hrun. apply token_match; rewrite ?Hrun; try assumption.
  now rewrite drop_app_length.
Qed.

(** Where the pattern matches there is a standalone token. *)
Lemma token_match_split (a b : list ascii) (r : mres) :
  match_here true [Bound; Rep cs 4 (Some 8); Bound] (last a) b 0 None None
    = Some r ->
  exists tok post,
    b = tok ++ post /\ 4 <= length tok <= 8 /\ forallb g tok = true
    /\ standalone a post /\ r = (length tok, None).
Proof.
  intros Hm. apply token_match_inv in Hm as (-> & Hlen & Hprev & Hnext).
  exists (take (run_length g b) b), (drop (run_length g b) b).
  pose proof (run_length_le g b) as Hle.
  rewrite take_drop, length_take.
  replace (run_length g b `min` length b) with (run_length g b) by lia.
  repeat split; try lia; try assumption.
  now apply run_length_take.
Qed.

End Token.

(** *** The labeled patterns *)

Lemma lits_inv (l : list ascii) (p' : regex) :
  forall (prev : option ascii) (s : list ascii) (pos : nat)
         (gs : option nat) (g : option (nat * nat)) (r : mres),
    match_here true (map Lit l ++ p') prev s pos gs g = Some r ->
    exists lab rest,
      s = lab ++ rest /\ same_ignoring_case lab l
      /\ match_here true p' (before prev lab) rest (pos + length l) gs g
         = Some r.
Proof.
  induction l as [ | c l IH ]; intros prev s pos gs g r Hm.
  - exists [], s. simpl in *. rewrite Nat.add_0_r. now repeat split.
  - cbn [match_here map app] in Hm. destruct s as [ | x s ]; [ discriminate | ].
    destruct (eqb_icase true c x) eqn:Hc; [ | discriminate ].
    apply eqb_icase_lower in Hc.
    destruct (IH _ _ _ _ _ _ Hm) as (lab & rest & -> & Hsame & Hr).
    exists (x :: lab), rest. split; [ reflexivity | ].
    split; [ unfold same_ignoring_case in *; simpl; now rewrite Hc, Hsame | ].
    rewrite before_cons. simpl length.
    now replace (pos + S (length l)) with (S pos + length l) by lia.
Qed.

Lemma lits_match (l : list ascii) (p' : regex) :
  forall (lab : list ascii) (prev : option ascii) (rest : list ascii)
         (pos : nat) (gs : option nat) (g : option (nat * nat)),
    same_ignoring_case lab l ->
    match_here true (map Lit l ++ p') prev (lab ++ rest) pos gs g
    = match_here true p' (before prev lab) rest (pos + length l) gs g.
Proof.
  induction l as [ | c l IH ]; intros lab prev rest pos gs g Hsame;
    unfold same_ignoring_case in Hsame.
  - destruct lab; [ | discriminate ]. simpl. now rewrite Nat.add_0_r.
  - destruct lab as [ | x lab ]; [ discriminate | ].
    simpl in Hsame. injection Hsame as Hx Hrest.
    cbn [match_here map app].
    assert (Hc : eqb_icase true c x = true)
      by (apply eqb_icase_lower; congruence).
    rewrite Hc, (IH lab (Some x) rest (S pos) gs g Hrest), before_cons.
    simpl length.
    now replace (pos + S (length l)) with (S pos + length l) by lia.
Qed.

(** After the label: separators, then at least one digit. *)
Lemma sep_then_digits_inv (prev : option ascii) (s : list ascii)
    (pos : nat) (r : mres) :
  match_here true sep_then_digits prev s pos None None = Some r ->
  exists seps d rest,
    s = seps ++ d :: rest /\ forallb separator seps = true
    /\ is_digit d = true.
Proof.
  unfold sep_then_digits. cbn [match_here].
  rewrite (run_length_ext _ separator s class_separator).
  intros Hf.
  destruct (run_length separator s <? 0); [ discriminate | ].
  apply first_down_some in Hf as (k & Hk & Hcont & _).
  change (cset_mem true Digit) with is_digit in Hcont.
  destruct (run_length is_digit (drop k s) <? 1) eqn:Hrun;
    [ discriminate | ].
  apply Nat.ltb_ge in Hrun.
  destruct (run_length_nth is_digit (drop k s) 0) as (d & Hd & Hdig);
    [ lia | ].
  exists (take k s), d, (drop (S k) s).
  split.
  - rewrite <- (take_drop k s) at 1. f_equal.
    destruct (drop k s) as [ | x t ] eqn:Hdrop; [ discriminate | ].
    simpl in Hd. injection Hd as ->. f_equal.
    symmetry. now apply (drop_next k s d).
  - split; [ | exact Hdig ]. apply run_length_take. lia.
Qed.

Lemma sep_then_digits_match (prev : option ascii) (seps rest : list ascii)
    (d : ascii) (pos : nat) :
  forallb separator seps = true -> is_digit d = true ->
  exists r,
    match_here true sep_then_digits prev (seps ++ d :: rest) pos None None
    = Some r.
Proof.
  intros Hseps Hd.
  unfold sep_then_digits. cbn [match_here].
  rewrite (run_length_ext _ separator _ class_separator).
  assert (Hrun : run_length separator (seps ++ d :: rest) = length seps).
  { rewrite run_length_app by exact Hseps. simpl.
    rewrite (digit_not_separator d Hd). lia. }
  rewrite Hrun.
  destruct (length seps <? 0) eqn:H0; [ apply Nat.ltb_lt in H0; lia | ].
  eexists. apply first_down_top.
  replace (0 + (length seps - 0)) with (length seps) by lia.
  rewrite drop_app_length.
  assert (Hr : run_length is_digit (d :: rest)
               = S (run_length is_digit rest)) by (simpl; now rewrite Hd).
  cbn [match_here]. change (cset_mem true Digit) with is_digit.
  rewrite Hr. simpl Nat.ltb. cbv iota.
  apply first_down_top. reflexivity.
Qed.

(** *** Patterns against the text *)

Lemma in_otp_patterns (p : regex) :
  In p otp_patterns <->
  p = pat_digits \/ p = pat_alnum
  \/ exists l, In l labels /\ p = pat_label l.
Proof.
  unfold otp_patterns, labels. simpl. split.
  - intros [ <- | [ <- | [ <- | [ <- | [ <- | [ <- | [ <- | [] ]]]]]]];
      auto; right; right; eexists; (split; [ | reflexivity ]); simpl; auto 10.
  - intros [ -> | [ -> | (l & Hl & ->) ] ]; auto.
    destruct Hl as [ <- | [ <- | [ <- | [ <- | [ <- | [] ]]]]]; auto 10.
Qed.

(** Whatever a pattern of the list finds is a code-like substring. *)
Lemma found_is_code_like (p : regex) (text : list ascii) :
  In p otp_patterns -> findall true p text <> [] -> code_like text.
Proof.
  intros Hp Hne.
  apply scan_nonempty_inv in Hne as (a & b & r & -> & Hm).
  rewrite before_none in Hm.
  apply in_otp_patterns in Hp as [ -> | [ -> | (l & Hl & ->) ] ].
  - left.
    apply (token_match_split Digit is_digit (fun _ => eq_refl) digit_is_word)
      in Hm as (tok & post & -> & Hlen & Hall & Hst & _).
    exists a, tok, post. split; [ reflexivity | ].
    split; [ exact Hlen | ]. split; [ | exact Hst ].
    apply forallb_forall. intros c Hc. apply digit_is_alnum.
    rewrite forallb_forall in Hall. now apply Hall.
  - left.
    apply (token_match_split _ alnum class_alnum alnum_is_word)
      in Hm as (tok & post & -> & Hlen & Hall & Hst & _).
    now exists a, tok, post.
  - right. unfold pat_label, lits in Hm.
    apply lits_inv in Hm as (lab & rest & -> & Hsame & Hm).
    apply sep_then_digits_inv in Hm as (seps & d & post & -> & Hseps & Hd).
    exists a, lab, seps, d, post. split; [ reflexivity | ].
    split; [ now exists l | now split ].
Qed.

(** Every code-like substring is found by a pattern of the list. *)
Lemma code_like_found (text : list ascii) :
  code_like text ->
  exists p, In p otp_patterns /\ findall true p text <> [].
Proof.
  intros [ (pre & tok & post & -> & Hlen & Hall & Hpre & Hpost)
         | (pre & lab & seps & d & post & -> & (l & Hl & Hsame) & Hseps & Hd) ].
  - exists pat_alnum. split; [ apply in_otp_patterns; auto | ].
    unfold findall. apply (scan_found true pat_alnum pre None _ (length tok, None)).
    rewrite before_none.
    now apply (token_match_at _ alnum class_alnum alnum_is_word).
  - exists (pat_label l).
    split; [ apply in_otp_patterns; right; right; now exists l | ].
    destruct (sep_then_digits_match (before (last pre) lab) seps post d
                (0 + length (list_ascii_of_string l)) Hseps Hd) as [r Hr].
    unfold findall. apply (scan_found true (pat_label l) pre None _ r).
    rewrite before_none. unfold pat_label, lits.
    now rewrite lits_match.
Qed.

Lemma extract_otp_none (text : string) :
  extract_otp text = None <->
  forall p, In p otp_patterns ->
            findall true p (list_ascii_of_string text) = [].
Proof.
  unfold extract_otp, extract_otp_chars. rewrite <- first_match_none.
  destruct (first_match otp_patterns (list_ascii_of_string text));
    simpl; split; congruence.
Qed.

(** The extractor finds a code exactly in the texts with a code-like
    substring. *)
Lemma extract_otp_some_iff_code_like (text : string) :
  extract_otp text <> None <-> code_like (list_ascii_of_string text).
Proof.
  split.
  - intros Hsome.
    destruct (first_match otp_patterns (list_ascii_of_string text))
      as [ x | ] eqn:Hf.
    + assert (Hex : exists p, In p otp_patterns
                    /\ findall true p (list_ascii_of_string text) <> []).
      { clear Hsome. revert Hf. generalize otp_patterns as ps.
        induction ps as [ | p ps IH ]; simpl; [ discriminate | ].
        destruct (findall true p (list_ascii_of_string text)) eqn:Hp.
        - intros H. destruct (IH H) as (q & Hq & Hne). exists q. auto.
        - intros _. exists p. split; [ now left | congruence ]. }
      destruct Hex as (p & Hp & Hne). now apply (found_is_code_like p).
    + exfalso. apply Hsome. unfold extract_otp, extract_otp_chars.
      now rewrite Hf.
  - intros Hc Hnone.
    destruct (code_like_found _ Hc) as (p & Hp & Hne).
    rewrite extract_otp_none in Hnone. now apply Hne, Hnone.
Qed.

(** *** The extractor *)

Lemma scan_hit (ic : bool) (p : regex) (prev : option ascii)
    (s : list ascii) (r : mres) :
  match_here ic p prev s 0 None None = Some r ->
  exists l, scan ic p 0 prev s = item_of p s r :: l.
Proof.
  intros H. destruct s; simpl; rewrite H; eexists; reflexivity.
Qed.

(** A bare pattern finds something only where a bare token stands. *)
Lemma bare_found (p : regex) (text : list ascii) :
  p = pat_digits \/ p = pat_alnum ->
  findall true p text <> [] ->
  exists pre tok post, text = pre ++ tok ++ post /\ bare_token pre tok post.
Proof.
  intros Hp Hne.
  apply scan_nonempty_inv in Hne as (a & b & r & -> & Hm).
  rewrite before_none in Hm. destruct Hp as [ -> | -> ].
  - apply (token_match_split Digit is_digit (fun _ => eq_refl) digit_is_word)
      in Hm as (tok & post & -> & Hlen & Hall & Hst & _).
    exists a, tok, post. split; [ reflexivity | ].
    split; [ exact Hlen | ]. split; [ | exact Hst ].
    apply forallb_forall. intros c Hc. apply digit_is_alnum.
    rewrite forallb_forall in Hall. now apply Hall.
  - apply (token_match_split _ alnum class_alnum alnum_is_word)
      in Hm as (tok & post & -> & Hlen & Hall & Hst & _).
    now exists a, tok, post.
Qed.

(** A token is leftmost when no digit stands before it. *)
Lemma leftmost_without_digit_before (pre tok post : list ascii) :
  forallb (fun c => negb (is_digit c)) pre = true ->
  forall pre1 tok1 post1,
    pre ++ tok ++ post = pre1 ++ tok1 ++ post1 ->
    digit_token pre1 tok1 post1 -> length pre <= length pre1.
Proof.
  intros Hpre pre1 tok1 post1 Heq (Hlen & Hall & _).
  destruct (Nat.le_gt_cases (length pre) (length pre1)) as [ | Hlt ];
    [ assumption | exfalso ].
  destruct tok1 as [ | d tok1 ]; [ simpl in Hlen; lia | ].
  simpl in Hall. apply andb_true_iff in Hall as [Hd _].
  assert (Hn : nth_error (pre ++ tok ++ post) (length pre1) = Some d).
  { rewrite Heq, nth_error_app2 by lia. now rewrite Nat.sub_diag. }
  rewrite nth_error_app1 in Hn by lia.
  apply nth_error_In in Hn.
  rewrite forallb_forall in Hpre. specialize (Hpre d Hn).
  rewrite Hd in Hpre. discriminate.
Qed.

(** When the text holds no standalone token of 4 to 8 digits or letters,
    the result is the one of the labeled patterns, taken in their order. *)
Lemma labeled_patterns_are_fallback (text : list ascii) :
  (forall pre tok post,
      text = pre ++ tok ++ post -> ~ bare_token pre tok post) ->
  extract_otp_chars text = first_match (map pat_label labels) text.
Proof.
  intros Hno.
  assert (Hd : findall true pat_digits text = []).
  { destruct (findall true pat_digits text) eqn:Hf;
      [ reflexivity | exfalso ].
    destruct (bare_found pat_digits text)
      as (p1 & t1 & q1 & He & Hb); [ now left | congruence | ].
    now apply (Hno p1 t1 q1). }
  assert (Ha : findall true pat_alnum text = []).
  { destruct (findall true pat_alnum text) eqn:Hf;
      [ reflexivity | exfalso ].
    destruct (bare_found pat_alnum text)
      as (p1 & t1 & q1 & He & Hb); [ now right | congruence | ].
    now apply (Hno p1 t1 q1). }
  unfold extract_otp_chars, otp_patterns. cbn [first_match].
  now rewrite Hd, Ha.
Qed.

(** C2 (as amended).  The bare pattern of 4 to 8 digits is tried first:
    when the text holds a standalone token of 4 to 8 digits,
    [extract_otp] returns the leftmost such token, whether or not a label
    stands before it. *)
Theorem extract_otp_prefers_bare_tokens
    (text : string) (pre tok post : list ascii) :
  list_ascii_of_string text = pre ++ tok ++ post ->
  digit_token pre tok post ->
  (forall pre1 tok1 post1,
      pre ++ tok ++ post = pre1 ++ tok1 ++ post1 ->
      digit_token pre1 tok1 post1 -> length pre <= length pre1) ->
  extract_otp text = Some (string_of_list_ascii tok).
Proof.
  intros Htext (Hlen & Hall & Hpre & Hpost) Hleft.
  assert (Hscan : exists l,
             findall true pat_digits (pre ++ tok ++ post) = tok :: l).
  { unfold findall. rewrite scan_none_prefix.
    - rewrite before_none.
      destruct (scan_hit true pat_digits (last pre) (tok ++ post)
                  (length tok, None)) as [l Hl].
      + now apply (token_match_at Digit is_digit
                     (fun _ => eq_refl) digit_is_word).
      + exists l. rewrite Hl. f_equal.
        unfold item_of. simpl. now rewrite take_app_length.
    - intros a b -> Hb. rewrite before_none.
      destruct (match_here true pat_digits (last a)
                  (b ++ tok ++ post) 0 None None) as [ r | ] eqn:Hm;
        [ exfalso | reflexivity ].
      apply (token_match_split Digit is_digit
               (fun _ => eq_refl) digit_is_word)
        in Hm as (tok1 & post1 & Heq & Hlen1 & Hall1 & Hst1 & _).
      assert (Hle : length (a ++ b) <= length a).
      { apply (Hleft a tok1 post1).
        - now rewrite <- app_assoc, Heq.
        - exact (conj Hlen1 (conj Hall1 Hst1)). }
      rewrite length_app in Hle.
      destruct b; [ congruence | simpl in Hle; lia ]. }
  destruct Hscan as [l Hl].
  unfold extract_otp, extract_otp_chars, otp_patterns.
  cbn [first_match]. now rewrite Htext, Hl.
Qed.

(** C2, counterexample.  The text holds the labeled form
    ["your code: 482913"], which the labeled pattern captures, but the
    result is the earlier bare token ["9999"]. *)
Lemma labeled_code_not_returned :
  findall true (pat_label "your code")
          (list_ascii_of_string "ref 9999 your code: 482913")
    = [list_ascii_of_string "482913"]
  /\ extract_otp "ref 9999 your code: 482913" = Some "9999"%string
  /\ extract_otp "ref 9999 your code: 482913" <> Some "482913"%string.
Proof. repeat split; try reflexivity. discriminate. Qed.

(** Under [re.IGNORECASE] the second pattern takes any standalone word of
    4 to 8 letters, and the labeled patterns decide for codes shorter
    than 4 or longer than 8 digits when no such word is around. *)
Example words_are_tokens :
  extract_otp "hello world" = Some "hello"%string
  /\ extract_otp "your code: 123" = Some "your"%string
  /\ extract_otp "otp 123456789" = Some "123456789"%string
  /\ extract_otp "PIN:12" = Some "12"%string.
Proof. repeat split. Qed.

(** C2, an instance: the token ["9999"] after ["ref "], and the code of
    ["your code: 482913"], before which no digit stands. *)
Lemma extract_otp_prefers_bare_tokens_witness :
  extract_otp "ref 9999 your code: 482913" = Some "9999"%string
  /\ extract_otp "your code: 482913" = Some "482913"%string.
Proof.
  split.
  - apply (extract_otp_prefers_bare_tokens
             "ref 9999 your code: 482913"
             (list_ascii_of_string "ref ")
             (list_ascii_of_string "9999")
             (list_ascii_of_string " your code: 482913")).
    + reflexivity.
    + repeat split; simpl; lia.
    + now apply leftmost_without_digit_before.
  - apply (extract_otp_prefers_bare_tokens
             "your code: 482913"
             (list_ascii_of_string "your code: ")
             (list_ascii_of_string "482913") []).
    + reflexivity.
    + repeat split; simpl; lia.
    + now apply leftmost_without_digit_before.
Defined.

(* ===================================================================== *)
(** ** More on the ledger and the cycles                                  *)
(* ===================================================================== *)

Lemma filtering_kept_sublist (numbers : list item) :
  forall (sent : gset pyval) (new : list record),
  exists kept : list record,
    snd (fst (filtering numbers sent new)) = new ++ kept
    /\ kept `sublist_of` objects_of numbers.
Proof.
  induction numbers as [ | [n | ] rest IH ]; intros sent new.
  - exists []. simpl. now rewrite app_nil_r.
  - simpl.
    destruct (truthy (dict_get n "id" PNone)
              && negb (hashable (dict_get n "id" PNone))).
    { exists []. simpl. rewrite app_nil_r. split; [ reflexivity | ].
      apply sublist_nil_l. }
    destruct (truthy (dict_get n "id" PNone)
              && negb (bool_decide (set_key (dict_get n "id" PNone) ∈ sent))).
    + destruct (IH ({[set_key (dict_get n "id" PNone)]} ∪ sent) (new ++ [n]))
        as (kept & Hq & Hsub).
      exists (n :: kept). rewrite Hq, <- app_assoc. split; [ reflexivity | ].
      now apply sublist_skip.
    + destruct (IH sent new) as (kept & Hq & Hsub).
      exists kept. split; [ exact Hq | ]. now apply sublist_cons.
  - exists []. simpl. rewrite app_nil_r. split; [ reflexivity | ].
    apply sublist_nil_l.
Qed.

Lemma filtering_stops_at (pre rest : list item) (bad : item) :
  raises_in_filtering bad = true ->
  forall (sent : gset pyval) (new : list record),
    filtering (pre ++ bad :: rest) sent new
    = (fst (filtering pre sent new), false).
Proof.
  intros Hbad.
  induction pre as [ | [n | ] pre IH ]; intros sent new.
  - destruct bad as [ n | ]; [ | reflexivity ].
    simpl in *. unfold unhashable_id in Hbad. now rewrite Hbad.
  - simpl.
    destruct (truthy (dict_get n "id" PNone)
              && negb (hashable (dict_get n "id" PNone))); [ reflexivity | ].
    destruct (truthy (dict_get n "id" PNone)
              && negb (bool_decide (set_key (dict_get n "id" PNone) ∈ sent)));
      apply IH.
  - reflexivity.
Qed.

Lemma filtering_objects_complete (recs : list record) :
  Forall (fun n => unhashable_id n = false) recs ->
  forall (sent : gset pyval) (new : list record),
    snd (filtering (map Obj recs) sent new) = true.
Proof.
  induction 1 as [ | n recs Hn Hrecs IH ]; intros sent new; [ reflexivity | ].
  simpl. unfold unhashable_id in Hn. rewrite Hn.
  destruct (truthy (dict_get n "id" PNone)
            && negb (bool_decide (set_key (dict_get n "id" PNone) ∈ sent)));
    apply IH.
Qed.

Section CycleMore.

Variable fromisoformat : string -> option datetime.
Variable T : Type.
Variable send_message : T -> string -> announcement -> T * bool.

Abbreviation ledger' := (ledger_after fromisoformat T send_message).
Abbreviation events' := (events_of fromisoformat T send_message).
Abbreviation job := (check_and_send_success_numbers fromisoformat T send_message).
Abbreviation repeat_job := (run_repeating fromisoformat T send_message).

(** The ledger after a cycle, from what the filtering loop queued. *)
Lemma ledger_after_queued (b : bot) (h : http) (t : T) :
  ledger' b h t = list_to_set (map id_of (queued b h)) ∪ sent_numbers b
  /\ NoDup (map id_of (queued b h))
  /\ Forall (fun n => id_of n ∉ sent_numbers b /\ truthy (id_of n) = true)
            (queued b h)
  /\ queued b h `sublist_of` objects_of (page_of b h).
Proof.
  rewrite ledger_after_filtering. unfold queued, page_of.
  destruct (get_recent_success_numbers_after_start b h) as [ numbers | tr ].
  - destruct (filtering_spec numbers (sent_numbers b) [])
      as (kept & Hq & Hs & Hnd & Hall).
    destruct (filtering_kept_sublist numbers (sent_numbers b) [])
      as (kept' & Hq' & Hsub).
    rewrite Hq in Hq'. simpl in Hq'. subst kept'.
    rewrite Hq, Hs. simpl. auto.
  - simpl. split; [ set_solver | ]. split; [ constructor | ].
    split; [ constructor | constructor ].
Qed.

(** The ids of the records a cycle announces are pairwise different,
    were not in the ledger before and are in it afterwards. *)
Lemma announced_ids_fresh (b : bot) (h : http) (t : T) :
  NoDup (map id_of (announced (events' b h t)))
  /\ (forall n, n ∈ announced (events' b h t) ->
                id_of n ∉ sent_numbers b /\ id_of n ∈ ledger' b h t)
  /\ sent_numbers b ⊆ ledger' b h t.
Proof.
  destruct (ledger_after_queued b h t) as (Hl & Hnd & Hall & _).
  destruct (announced_prefix_of_queued fromisoformat T send_message b h t)
    as [rest Hrest].
  split.
  { rewrite Hrest, map_app in Hnd. now apply NoDup_app in Hnd as [Hnd _]. }
  split; [ | rewrite Hl; set_solver ].
  intros n Hn.
  assert (Hq : n ∈ queued b h) by (rewrite Hrest; apply elem_of_app; now left).
  rewrite Forall_forall in Hall. split; [ now apply Hall | ].
  rewrite Hl. apply elem_of_union_l, elem_of_list_to_set.
  apply list_elem_of_fmap. now exists n.
Qed.

(** X2.  The records a cycle announces are taken from the fetched page in
    page order (a subsequence of its objects); their ids are pairwise
    different, were not in the ledger before the cycle and are in it
    afterwards; and the ledger only grows. *)
Theorem cycle_announces_new_records_in_page_order
    (b : bot) (h : http) (t : T) :
  announced (events' b h t) `sublist_of` objects_of (page_of b h)
  /\ NoDup (map id_of (announced (events' b h t)))
  /\ (forall n, n ∈ announced (events' b h t) ->
                id_of n ∉ sent_numbers b /\ id_of n ∈ ledger' b h t)
  /\ sent_numbers b ⊆ ledger' b h t.
Proof.
  split; [ | apply announced_ids_fresh ].
  destruct (ledger_after_queued b h t) as (_ & _ & _ & Hsub).
  destruct (announced_prefix_of_queued fromisoformat T send_message b h t)
    as [rest Hrest].
  etransitivity; [ | exact Hsub ]. rewrite Hrest. now apply sublist_inserts_r.
Qed.

Lemma job_components (b : bot) (h : http) (t : T) :
  job b h t
  = (with_sent b (ledger' b h t),
     transport_after fromisoformat T send_message b h t, events' b h t).
Proof.
  unfold check_and_send_success_numbers.
  rewrite <- (cycle_keeps_settings fromisoformat T send_message b h t).
  unfold transport_after, events_of.
  now destruct (send_success_numbers_to_group fromisoformat T send_message b h t)
    as [[b1 t1] e1].
Qed.

(** The announcements of a run of cycles against the ledger: what is
    announced was not in the ledger at the start and is in it at the end,
    and the ledger only grows. *)
Lemma repeat_job_facts (hs : list http) :
  forall (b : bot) (t : T),
    (forall n, n ∈ announced (snd (repeat_job hs b t)) ->
               id_of n ∉ sent_numbers b
               /\ id_of n ∈ sent_numbers (fst (fst (repeat_job hs b t))))
    /\ sent_numbers b ⊆ sent_numbers (fst (fst (repeat_job hs b t))).
Proof.
  induction hs as [ | h hs IH ]; intros b t; simpl.
  - split; [ intros n Hn; inversion Hn | reflexivity ].
  - rewrite job_components.
    specialize (IH (with_sent b (ledger' b h t))
                   (transport_after fromisoformat T send_message b h t)).
    destruct (repeat_job hs (with_sent b (ledger' b h t))
                (transport_after fromisoformat T send_message b h t))
      as [[b2 t2] e2].
    simpl in *. destruct IH as (Hin2 & Hsub2).
    destruct (announced_ids_fresh b h t) as (_ & Hin1 & Hsub1).
    rewrite announced_app. split.
    + intros n Hn. apply elem_of_app in Hn as [Hn | Hn].
      * destruct (Hin1 n Hn) as [Ha Hb]. split; [ exact Ha | now apply Hsub2 ].
      * destruct (Hin2 n Hn) as [Ha Hb]. split; [ | exact Hb ].
        intros Hc. apply Ha. now apply Hsub1.
    + etransitivity; eassumption.
Qed.

(** X1.  Over any number of successive cycles, whatever the fetches
    return and whatever the transport does, no record id is announced
    twice: the ids of the announced records are pairwise different, none
    of them was in the ledger at the start, all of them are in the ledger
    at the end, and the ledger at the end contains the one at the start. *)
Theorem no_id_announced_twice (hs : list http) (b : bot) (t : T) :
  NoDup (map id_of (announced (snd (repeat_job hs b t))))
  /\ (forall n, n ∈ announced (snd (repeat_job hs b t)) ->
                id_of n ∉ sent_numbers b
                /\ id_of n ∈ sent_numbers (fst (fst (repeat_job hs b t))))
  /\ sent_numbers b ⊆ sent_numbers (fst (fst (repeat_job hs b t))).
Proof.
  split; [ | apply repeat_job_facts ].
  revert b t. induction hs as [ | h hs IH ]; intros b t; simpl.
  - constructor.
  - rewrite job_components.
    specialize (IH (with_sent b (ledger' b h t))
                   (transport_after fromisoformat T send_message b h t)).
    pose proof (repeat_job_facts hs (with_sent b (ledger' b h t))
                  (transport_after fromisoformat T send_message b h t))
      as (Hin2 & _).
    destruct (repeat_job hs (with_sent b (ledger' b h t))
                (transport_after fromisoformat T send_message b h t))
      as [[b2 t2] e2].
    simpl in *.
    destruct (announced_ids_fresh b h t) as (Hnd1 & Hin1 & _).
    rewrite announced_app, map_app.
    apply NoDup_app. split; [ exact Hnd1 | ]. split; [ | exact IH ].
    intros k Hk1 Hk2.
    apply list_elem_of_fmap in Hk1 as (n1 & -> & Hn1).
    apply list_elem_of_fmap in Hk2 as (n2 & Heq & Hn2).
    destruct (Hin2 n2 Hn2) as [Hnot _]. apply Hnot.
    rewrite <- Heq. now apply Hin1.
Qed.

(** X3.  A record that a cycle queued but did not announce (a call of the
    transport raised at it or before it, or the filtering loop was left
    by an exception) is not announced by any later cycle either: its id
    stays in the ledger. *)
Theorem unannounced_record_is_lost
    (b : bot) (h : http) (t : T) (hs : list http) (n : record) :
  n ∈ queued b h ->
  id_of n ∉ map id_of (announced (events' b h t)) ->
  id_of n ∉ map id_of (announced (snd (repeat_job (h :: hs) b t))).
Proof.
  intros Hq Hnot. simpl. rewrite job_components.
  pose proof (repeat_job_facts hs (with_sent b (ledger' b h t))
                (transport_after fromisoformat T send_message b h t)) as Hr.
  destruct (repeat_job hs (with_sent b (ledger' b h t))
              (transport_after fromisoformat T send_message b h t))
    as [[b2 t2] e2].
  simpl in *. destruct Hr as (Hin2 & _).
  rewrite announced_app, map_app. intros Hin.
  apply elem_of_app in Hin as [Hin | Hin]; [ now apply Hnot | ].
  apply list_elem_of_fmap in Hin as (m & Heq & Hm).
  destruct (Hin2 m Hm) as [Hfresh _]. apply Hfresh.
  destruct (ledger_after_queued b h t) as (Hl & _).
  rewrite Hl, <- Heq. apply elem_of_union_l, elem_of_list_to_set.
  apply list_elem_of_fmap. now exists n.
Qed.

(** X4.  When the filtering loop is left by an exception, at an element
    of the fetched list that is not an object or at an object whose
    truthy id is unhashable, the cycle ends in the error line without any
    call of the transport: nothing is announced, although the truthy ids
    of the objects before that element are all in the ledger
    afterwards. *)
Theorem exception_in_filtering_ends_the_cycle
    (b : bot) (t : T) (recs : list record) (bad : item) (rest : list item) :
  started b = true ->
  raises_in_filtering bad = true ->
  Forall (fun n => unhashable_id n = false) recs ->
  let h := HttpReply 200 (NumList (map Obj recs ++ bad :: rest)) in
  events' b h t = [LoggedError]
  /\ transport_after fromisoformat T send_message b h t = t
  /\ (forall n, n ∈ recs -> truthy (dict_get n "id" PNone) = true ->
                id_of n ∈ ledger' b h t).
Proof.
  intros Hst Hbad Hclean h.
  assert (Hp : get_recent_success_numbers_after_start b h
               = NumList (map Obj recs ++ bad :: rest)).
  { unfold get_recent_success_numbers_after_start. now rewrite Hst. }
  split; [ | split ].
  - rewrite events_of_stages, Hp, filtering_stops_at by exact Hbad.
    now destruct (filtering (map Obj recs) (sent_numbers b) []) as [[s0 n0] o0].
  - unfold transport_after, send_success_numbers_to_group. rewrite Hp.
    destruct (map Obj recs ++ bad :: rest) as [ | i l ] eqn:Hl;
      [ now destruct recs | ].
    rewrite <- Hl, filtering_stops_at by exact Hbad.
    now destruct (filtering (map Obj recs) (sent_numbers b) []) as [[s0 n0] o0].
  - intros n Hn Ht.
    rewrite ledger_after_filtering, Hp, filtering_stops_at by exact Hbad.
    simpl.
    apply (filtering_covers (map Obj recs) (sent_numbers b) []);
      [ now apply filtering_objects_complete | | exact Ht ].
    apply list_elem_of_fmap. now exists n.
Qed.

(** X5.  A cycle adds at most one id per element of the fetched page: the
    ledger grows by the number of records queued, which is at most the
    length of the page. *)
Theorem ledger_growth_bounded (b : bot) (h : http) (t : T) :
  size (ledger' b h t) = size (sent_numbers b) + length (queued b h)
  /\ length (queued b h) <= length (page_of b h).
Proof.
  destruct (ledger_after_queued b h t) as (Hl & Hnd & Hall & Hsub).
  split.
  - rewrite Hl, size_union.
    + rewrite size_list_to_set by exact Hnd. rewrite length_map. lia.
    + intros k Hk Hs. apply elem_of_list_to_set in Hk.
      apply list_elem_of_fmap in Hk as (n & -> & Hn).
      rewrite Forall_forall in Hall. now apply (Hall n Hn).
  - apply sublist_length in Hsub.
    etransitivity; [ exact Hsub | ].
    generalize (page_of b h). intros l.
    induction l as [ | [n | ] l IH ]; simpl; lia.
Qed.

End CycleMore.

(** X3, an instance: with the transport that raises
    on its second call, the record of id ["c"] of a page of three new
    records is announced neither in that cycle nor when the same page is
    fetched twice more. *)
Lemma unannounced_record_is_lost_witness :
  let h := HttpReply 200
             (NumList [Obj (rec_id "a"); Obj (rec_id "b"); Obj (rec_id "c")]) in
  announced (events_of fromisoformat_core nat flaky bot0 h 0) = [rec_id "a"]
  /\ id_of (rec_id "c")
     ∉ map id_of (announced (snd (run_repeating fromisoformat_core nat flaky
                                    [h; h; h] bot0 0))).
Proof.
  intros h. split; [ reflexivity | ].
  apply (unannounced_record_is_lost fromisoformat_core nat flaky bot0 h 0
           [h; h] (rec_id "c")).
  - assert (Hq : queued bot0 h = [rec_id "a"; rec_id "b"; rec_id "c"])
      by (vm_compute; reflexivity).
    rewrite Hq. apply list_elem_of_In. simpl. auto.
  - assert (Ha : map id_of (announced (events_of fromisoformat_core nat flaky
                                         bot0 h 0)) = [PStr "a"])
      by reflexivity.
    rewrite Ha. intros Hin. apply list_elem_of_In in Hin.
    destruct Hin as [ H | [] ]. discriminate H.
Defined.

(** X4, an instance: two new records, then a record whose id is a
    list. *)
Lemma exception_in_filtering_ends_the_cycle_witness :
  let h := HttpReply 200
             (NumList (map Obj [rec_id "a"; rec_id "b"]
                       ++ Obj [("id"%string, PNested true "[1]")]
                       :: [Obj (rec_id "c")])) in
  events_of fromisoformat_core unit accepting bot0 h tt = [LoggedError]
  /\ transport_after fromisoformat_core unit accepting bot0 h tt = tt
  /\ (forall n, n ∈ [rec_id "a"; rec_id "b"] ->
                truthy (dict_get n "id" PNone) = true ->
                id_of n ∈ ledger_after fromisoformat_core unit accepting
                            bot0 h tt).
Proof.
  intros h.
  apply (exception_in_filtering_ends_the_cycle fromisoformat_core unit
           accepting bot0 tt [rec_id "a"; rec_id "b"]
           (Obj [("id"%string, PNested true "[1]")]) [Obj (rec_id "c")]).
  - reflexivity.
  - reflexivity.
  - repeat constructor.
Defined.

(* ===================================================================== *)
(** ** More on the announcement fields and the masks                      *)
(* ===================================================================== *)

Lemma dict_get_absent (d : record) (key : string) (default : pyval) :
  (forall v, ~ In (key, v) d) -> dict_get d key default = default.
Proof.
  induction d as [ | [k v] d IH ]; intros Hno; simpl; [ reflexivity | ].
  destruct (String.eqb_spec k key) as [ -> | Hne ].
  - exfalso. apply (Hno v). now left.
  - apply IH. intros w Hw. apply (Hno w). now right.
Qed.

Lemma string_of_chars_inj (a b : list ascii) :
  string_of_list_ascii a = string_of_list_ascii b -> a = b.
Proof.
  intros H. rewrite <- (list_ascii_of_string_of_list_ascii a),
    <- (list_ascii_of_string_of_list_ascii b). now rewrite H.
Qed.

(** The first character of a masked number is a digit or the [N] of
    ["N/A"]. *)
Lemma mask_number_head (num : string) :
  exists c rest,
    mask_number num = String c rest /\ Ascii.eqb c "+" = false.
Proof.
  pose proof (strip_all_digits (list_ascii_of_string num)) as Hd.
  fold (digits_of num) in Hd.
  assert (Hplus : forall c, is_digit c = true -> Ascii.eqb c "+" = false).
  { intros c. generalize (forall_ascii
      (fun c => implb (is_digit c) (negb (Ascii.eqb c "+"))) eq_refl c).
    destruct (is_digit c); simpl; [ | discriminate ].
    intros H _. now apply negb_true_iff. }
  unfold mask_number.
  destruct (6 <? length (digits_of num)) eqn:Hlen.
  - apply Nat.ltb_lt in Hlen.
    destruct (digits_of num) as [ | c d ]; [ simpl in Hlen; lia | ].
    simpl in Hd. apply andb_true_iff in Hd as [Hc _].
    exists c. eexists. split; [ reflexivity | now apply Hplus ].
  - destruct (digits_of num) as [ | c d ].
    + exists "N"%char, "/A"%string. now split.
    + simpl in Hd. apply andb_true_iff in Hd as [Hc _].
      exists c. eexists. split; [ reflexivity | now apply Hplus ].
Qed.

Section FieldFacts.

Variable fromisoformat : string -> option datetime.

(** X6.  The number of an upstream announcement is always [+] followed by
    the masked number, which is never empty; when the record has no
    [phoneNumber] the number is ["+N/A"], and when it has no [receivedAt]
    the time is ["N/A"], whatever the reader of timestamps does. *)
Theorem announcement_number_is_plus_prefixed (number : record) :
  a_masked_phone (build fromisoformat number)
    = String "+" (mask_number
                    (py_str (dict_get number "phoneNumber" (PStr "N/A"))))
  /\ ((forall v, ~ In ("phoneNumber"%string, v) number) ->
      a_masked_phone (build fromisoformat number) = "+N/A"%string)
  /\ ((forall v, ~ In ("receivedAt"%string, v) number) ->
      a_time (build fromisoformat number) = PStr "N/A").
Proof.
  split; [ | split ].
  - unfold build. simpl.
    destruct (mask_number_head
                (py_str (dict_get number "phoneNumber" (PStr "N/A"))))
      as (c & rest & -> & Hc).
    unfold plus_prefixed. now rewrite Hc.
  - intros Hno. unfold build. simpl. now rewrite dict_get_absent.
  - intros Hno. unfold build. simpl. now rewrite dict_get_absent.
Qed.

End FieldFacts.

(** X6, an instance: a record that has only an id and a numeric phone. *)
Lemma announcement_number_is_plus_prefixed_witness :
  a_masked_phone
    (build fromisoformat_core
       [("id"%string, PStr "a"); ("phoneNumber"%string, PInt 8801712345678)])
  = "+88017*****678"%string
  /\ a_masked_phone (build fromisoformat_core (rec_id "a")) = "+N/A"%string
  /\ a_time (build fromisoformat_core (rec_id "a")) = PStr "N/A".
Proof.
  split; [ reflexivity | ].
  split;
    apply (announcement_number_is_plus_prefixed fromisoformat_core (rec_id "a"));
    intros v [ H | [] ]; discriminate H.
Defined.

Lemma take_app_exact {A} (a b : list A) (n : nat) :
  length a = n -> take n (a ++ b) = a.
Proof. intros <-. apply take_app_length. Qed.

Lemma last_n_app_exact {A} (a b : list A) (n : nat) :
  length b = n -> last_n n (a ++ b) = b.
Proof.
  intros <-. unfold last_n. rewrite length_app.
  replace (length a + length b - length b) with (length a) by lia.
  apply drop_app_length.
Qed.

(** X7.  Masking a masked number changes nothing: both masking functions
    are idempotent. *)
Theorem masking_is_idempotent (raw : string) :
  mask_number (mask_number raw) = mask_number raw
  /\ format_phone_number (format_phone_number raw) = format_phone_number raw.
Proof.
  pose proof (strip_all_digits (list_ascii_of_string raw)) as Hd.
  fold (digits_of raw) in Hd.
  split.
  - unfold mask_number at 2 3.
    destruct (Nat.ltb_spec 6 (length (digits_of raw))) as [ Hlt | Hle ].
    + unfold mask_number. rewrite masked_digits by exact Hd.
      assert (H5 : length (take 5 (digits_of raw)) = 5)
        by (rewrite length_take; lia).
      assert (H3 : length (last_n 3 (digits_of raw)) = 3)
        by (apply length_last_n; lia).
      rewrite length_app, H5, H3. simpl Nat.ltb. cbv iota.
      now rewrite take_app_exact, last_n_app_exact.
    + destruct (digits_of raw) as [ | c d ] eqn:Hdig; [ reflexivity | ].
      unfold mask_number.
      rewrite digits_of_string, strip_digits_id by exact Hd.
      destruct (Nat.ltb_spec 6 (length (c :: d))); [ lia | reflexivity ].
  - unfold format_phone_number at 2 3.
    destruct (String.eqb raw EmptyString) eqn:He; [ reflexivity | ].
    destruct (Nat.ltb_spec (length (digits_of raw)) 6) as [ Hlt | Hge ].
    + unfold format_phone_number. rewrite He.
      destruct (Nat.ltb_spec (length (digits_of raw)) 6); [ reflexivity | lia ].
    + unfold format_phone_number. rewrite masked_digits by exact Hd.
      assert (H3 : length (take 3 (digits_of raw)) = 3)
        by (rewrite length_take; lia).
      assert (H3' : length (last_n 3 (digits_of raw)) = 3)
        by (apply length_last_n; lia).
      rewrite length_app, H3, H3'. simpl Nat.ltb. cbv iota.
      rewrite take_app_exact, last_n_app_exact by assumption.
      destruct (take 3 (digits_of raw)) as [ | c l ]; [ discriminate H3 | ].
      reflexivity.
Qed.

(** X8.  How much the masks show: of a number of more than 6 digits
    [mask_number] shows 8 digits, so that a number of 8 digits is shown
    whole; [format_phone_number] shows 6 digits of a number of at least 6
    digits, so that a number of 6 digits is shown whole. *)
Theorem masks_show_short_numbers_whole (raw : string) :
  (6 < length (digits_of raw) ->
   length (digits_of (mask_number raw)) = 8)
  /\ (length (digits_of raw) = 8 ->
      digits_of (mask_number raw) = digits_of raw)
  /\ (6 <= length (digits_of raw) ->
      length (digits_of (format_phone_number raw)) = 6)
  /\ (length (digits_of raw) = 6 ->
      digits_of (format_phone_number raw) = digits_of raw).
Proof.
  pose proof (strip_all_digits (list_ascii_of_string raw)) as Hd.
  fold (digits_of raw) in Hd.
  assert (Hm : 6 < length (digits_of raw) ->
               digits_of (mask_number raw)
               = take 5 (digits_of raw) ++ last_n 3 (digits_of raw)).
  { intros H. unfold mask_number.
    destruct (Nat.ltb_spec 6 (length (digits_of raw))); [ | lia ].
    now apply masked_digits. }
  assert (Hf : 6 <= length (digits_of raw) ->
               digits_of (format_phone_number raw)
               = take 3 (digits_of raw) ++ last_n 3 (digits_of raw)).
  { intros H. unfold format_phone_number.
    rewrite nonempty_when_digits by lia.
    destruct (Nat.ltb_spec (length (digits_of raw)) 6); [ lia | ].
    now apply masked_digits. }
  repeat split.
  - intros H. rewrite Hm, length_app, length_take, length_last_n by lia. lia.
  - intros H. rewrite Hm by lia. unfold last_n. rewrite H.
    change (8 - 3) with 5. apply take_drop.
  - intros H. rewrite Hf, length_app, length_take, length_last_n by lia. lia.
  - intros H. rewrite Hf by lia. unfold last_n. rewrite H.
    change (6 - 3) with 3. apply take_drop.
Qed.

(** X8, an instance: a number of 8 digits and a number of 6 digits. *)
Lemma masks_show_short_numbers_whole_witness :
  digits_of (mask_number "5551-2345") = digits_of "5551-2345"
  /\ mask_number "5551-2345" = "55512*****345"%string
  /\ digits_of (format_phone_number "555 123") = digits_of "555 123"
  /\ format_phone_number "555 123" = "555*****123"%string.
Proof.
  split; [ apply (masks_show_short_numbers_whole "5551-2345"); reflexivity | ].
  split; [ reflexivity | ].
  split; [ apply (masks_show_short_numbers_whole "555 123"); reflexivity | ].
  reflexivity.
Defined.

(* ===================================================================== *)
(** ** More on the extractor                                              *)
(* ===================================================================== *)

(** Every item of a scan is what the pattern matched at some position. *)
Lemma scan_items (ic : bool) (p : regex) (s : list ascii) :
  forall (skip : nat) (prev : option ascii) (x : list ascii),
    In x (scan ic p skip prev s) ->
    exists a b r,
      s = a ++ b /\ match_here ic p (before prev a) b 0 None None = Some r
      /\ x = item_of p b r.
Proof.
  induction s as [ | c s IH ]; intros skip prev x Hin.
  - destruct skip as [ | k ]; simpl in Hin; [ | contradiction ].
    destruct (match_here ic p prev [] 0 None None) as [ r | ] eqn:Hm;
      [ | contradiction ].
    destruct Hin as [ <- | [] ]. now exists [], [], r.
  - destruct skip as [ | k ]; simpl in Hin.
    + destruct (match_here ic p prev (c :: s) 0 None None) as [ r | ] eqn:Hm.
      * destruct Hin as [ <- | Hin ]; [ now exists [], (c :: s), r | ].
        destruct (IH _ _ _ Hin) as (a & b & r' & -> & Hr & ->).
        exists (c :: a), b, r'. now rewrite before_cons.
      * destruct (IH _ _ _ Hin) as (a & b & r' & -> & Hr & ->).
        exists (c :: a), b, r'. now rewrite before_cons.
    + destruct (IH _ _ _ Hin) as (a & b & r' & -> & Hr & ->).
      exists (c :: a), b, r'. now rewrite before_cons.
Qed.

Lemma first_down_all_some {A} (f : nat -> option A) (lo d : nat) (r : A) :
  (forall k, f k <> None) ->
  first_down f lo d = Some r -> f (lo + d) = Some r.
Proof.
  intros Hall Hf. apply first_down_some in Hf as (k & Hk & Hfk & Hnone).
  destruct (Nat.eq_dec k (lo + d)) as [ -> | Hne ]; [ exact Hfk | ].
  exfalso. apply (Hall (lo + d)). apply Hnone. lia.
Qed.

Lemma drop_app_add {A} (a b : list A) (k : nat) :
  drop (length a + k) (a ++ b) = drop k b.
Proof. induction a as [ | x a IH ]; simpl; [ reflexivity | exact IH ]. Qed.

Lemma take_add {A} (k m : nat) (s : list A) :
  take (k + m) s = take k s ++ take m (drop k s).
Proof.
  revert s. induction k as [ | k IH ]; intros [ | c s ]; simpl;
    try reflexivity.
  - now destruct m.
  - now rewrite IH.
Qed.

Lemma same_ignoring_case_length (a b : list ascii) :
  same_ignoring_case a b -> length a = length b.
Proof.
  unfold same_ignoring_case. intros H.
  rewrite <- (length_map lower a), <- (length_map lower b). now rewrite H.
Qed.

Lemma has_group_label (l : string) : has_group (pat_label l) = true.
Proof.
  unfold has_group, pat_label. rewrite existsb_app.
  apply orb_true_iff. now right.
Qed.

(** *** The phone pattern *)

Lemma phone_unfold (prev : option ascii) (s : list ascii) :
  match_here false pat_phone prev s 0 None None =
  if Nat.min 1 (run_length (Ascii.eqb "+") s) <? 0 then None
  else first_down
         (fun k =>
            if Nat.min 15 (run_length is_digit (drop k s)) <? 9 then None
            else first_down (fun k' => Some (k + k', None)) 9
                   (Nat.min 15 (run_length is_digit (drop k s)) - 9))
         0 (Nat.min 1 (run_length (Ascii.eqb "+") s) - 0).
Proof. reflexivity. Qed.

Lemma phone_match_inv (prev : option ascii) (s : list ascii) (r : mres) :
  match_here false pat_phone prev s 0 None None = Some r ->
  exists k m,
    k <= 1 /\ k <= run_length (Ascii.eqb "+") s
    /\ 9 <= m <= 15 /\ m <= run_length is_digit (drop k s)
    /\ r = (k + m, None).
Proof.
  rewrite phone_unfold. intros Hf.
  destruct (Nat.min 1 (run_length (Ascii.eqb "+") s) <? 0); [ discriminate | ].
  apply first_down_some in Hf as (k & Hk & Hcont & _).
  destruct (Nat.ltb_spec (Nat.min 15 (run_length is_digit (drop k s))) 9)
    as [ | Hge ]; [ discriminate | ].
  apply first_down_all_some in Hcont; [ | discriminate ].
  injection Hcont as <-.
  exists k, (9 + (Nat.min 15 (run_length is_digit (drop k s)) - 9)).
  repeat split; lia.
Qed.

Lemma phone_match (prev : option ascii) (ds post : list ascii) :
  length ds = 9 -> forallb is_digit ds = true ->
  match_here false pat_phone prev (ds ++ post) 0 None None <> None.
Proof.
  intros Hlen Hall.
  assert (Hrun : 9 <= run_length is_digit (ds ++ post))
    by (rewrite run_length_app by exact Hall; lia).
  assert (Hplus : run_length (Ascii.eqb "+") (ds ++ post) = 0).
  { destruct ds as [ | c ds ]; [ discriminate Hlen | ].
    cbn [forallb] in Hall. apply andb_true_iff in Hall as [Hc _].
    cbn [app run_length].
    destruct (Ascii.eqb_spec "+"%char c) as [ <- | ]; [ discriminate Hc | ].
    reflexivity. }
  assert (Hex : exists r,
             match_here false pat_phone prev (ds ++ post) 0 None None
             = Some r).
  { rewrite phone_unfold, Hplus.
    change (Nat.min 1 0) with 0. change (0 <? 0) with false.
    change (0 - 0) with 0. cbv iota.
    eexists. apply first_down_top. cbv beta.
    change (drop (0 + 0) (ds ++ post)) with (ds ++ post).
    destruct (Nat.ltb_spec (Nat.min 15 (run_length is_digit (ds ++ post))) 9)
      as [ | _ ]; [ lia | ].
    apply first_down_top. reflexivity. }
  destruct Hex as [r Hr]. rewrite Hr. discriminate.
Qed.

Lemma run_of_plus (s : list ascii) (k : nat) :
  k <= 1 -> k <= run_length (Ascii.eqb "+") s ->
  take k s = [] \/ take k s = ["+"%char].
Proof.
  intros H1 Hrun. destruct k as [ | [ | k ] ]; [ now left | | lia ].
  right. destruct s as [ | c s ]; cbn [run_length] in Hrun; [ lia | ].
  destruct (Ascii.eqb_spec "+"%char c) as [ <- | ]; [ | lia ].
  reflexivity.
Qed.

Lemma longest_first_spec (l : list (list ascii)) (x : list ascii) :
  longest_first l = Some x ->
  In x l /\ forall y, In y l -> length y <= length x.
Proof.
  destruct l as [ | x0 l ]; simpl; [ discriminate | ].
  intros [= <-].
  assert (H : forall (l : list (list ascii)) (best : list ascii),
    let r := fold_left (fun best y => if length best <? length y then y else best)
                       l best in
    (r = best \/ In r l) /\ length best <= length r
    /\ forall y, In y l -> length y <= length r).
  { clear. induction l as [ | y l IH ]; intros best; simpl.
    - split; [ now left | ]. split; [ lia | ]. intros y [].
    - destruct (Nat.ltb_spec (length best) (length y)) as [ Hlt | Hge ].
      + destruct (IH y) as (Hin & Hlen & Hall).
        split; [ destruct Hin as [ -> | Hin ]; auto | ].
        split; [ lia | ].
        intros z [ <- | Hz ]; [ exact Hlen | now apply Hall ].
      + destruct (IH best) as (Hin & Hlen & Hall).
        split; [ destruct Hin as [ Hin | Hin ]; auto | ].
        split; [ exact Hlen | ].
        intros z [ <- | Hz ]; [ lia | now apply Hall ]. }
  destruct (H l x0) as (Hin & Hlen & Hall).
  split; [ destruct Hin as [ -> | Hin ]; [ now left | now right ] | ].
  intros y [ <- | Hy ]; [ exact Hlen | now apply Hall ].
Qed.

Lemma empty_string_eqb (text : string) :
  String.eqb text EmptyString = true <-> list_ascii_of_string text = [].
Proof. destruct text; simpl; split; congruence. Qed.

Lemma extract_phone_number_parts (text p : string) :
  extract_phone_number text = Some p ->
  phone_shaped (list_ascii_of_string p).
Proof.
  unfold extract_phone_number.
  destruct (String.eqb text EmptyString); [ discriminate | ].
  destruct (longest_first (findall false pat_phone (list_ascii_of_string text)))
    as [ x | ] eqn:Hl; [ | discriminate ].
  intros [= <-]. rewrite list_ascii_of_string_of_list_ascii.
  apply longest_first_spec in Hl as [Hin _].
  apply scan_items in Hin as (a & b & r & Hab & Hm & ->).
  apply phone_match_inv in Hm as (k & m & Hk & Hkrun & Hm & Hmrun & ->).
  unfold item_of. simpl. rewrite take_add.
  exists (take k b), (take m (drop k b)). split; [ reflexivity | ].
  split; [ now apply run_of_plus | ].
  pose proof (run_length_le is_digit (drop k b)) as Hle.
  rewrite length_take. split; [ lia | ].
  now apply run_length_take.
Qed.

(** X9.  What [extract_phone_number] returns is an optional [+] followed
    by 9 to 15 digits, it stands in the text as it is returned, and no
    other match of the pattern in the text is longer. *)
Theorem extract_phone_number_shape (text p : string) :
  extract_phone_number text = Some p ->
  phone_shaped (list_ascii_of_string p)
  /\ occurs (list_ascii_of_string p) (list_ascii_of_string text)
  /\ forall y, In y (findall false pat_phone (list_ascii_of_string text)) ->
               length y <= String.length p.
Proof.
  unfold extract_phone_number.
  destruct (String.eqb text EmptyString); [ discriminate | ].
  destruct (longest_first (findall false pat_phone (list_ascii_of_string text)))
    as [ x | ] eqn:Hl; [ | discriminate ].
  intros [= <-].
  assert (Hshape : phone_shaped
                     (list_ascii_of_string (string_of_list_ascii x))).
  { apply (extract_phone_number_parts text). unfold extract_phone_number.
    destruct (String.eqb_spec text EmptyString) as [ -> | _ ];
      [ discriminate Hl | ].
    now rewrite Hl. }
  rewrite list_ascii_of_string_of_list_ascii in *.
  apply longest_first_spec in Hl as [Hin Hmax].
  split; [ exact Hshape | split ].
  - apply scan_items in Hin as (a & b & r & Hab & Hm & ->).
    exists a, (drop (fst r) b). rewrite Hab. f_equal.
    unfold item_of. simpl. now rewrite take_drop.
  - intros y Hy. specialize (Hmax y Hy).
    replace (String.length (string_of_list_ascii x)) with (length x);
      [ exact Hmax | ].
    clear. induction x as [ | c x IH ]; simpl; [ reflexivity | now rewrite IH ].
Qed.

(** X10.  [extract_phone_number] finds nothing exactly when the text holds
    no 9 digits in a row. *)
Theorem extract_phone_number_none_iff (text : string) :
  extract_phone_number text = None <->
  ~ exists ds, length ds = 9 /\ forallb is_digit ds = true
               /\ occurs ds (list_ascii_of_string text).
Proof.
  unfold extract_phone_number. split.
  - intros Hnone (ds & Hlen & Hall & pre & post & Htext).
    destruct (String.eqb text EmptyString) eqn:He.
    + apply empty_string_eqb in He. rewrite He in Htext.
      destruct pre; [ destruct ds; discriminate | discriminate ].
    + assert (Hne : findall false pat_phone (list_ascii_of_string text) <> []).
      { rewrite Htext. unfold findall.
        destruct (match_here false pat_phone (before None pre) (ds ++ post)
                    0 None None) as [ r | ] eqn:Hm.
        - now apply (scan_found false pat_phone pre None (ds ++ post) r).
        - exfalso. now apply (phone_match (before None pre) ds post). }
      destruct (findall false pat_phone (list_ascii_of_string text));
        [ congruence | discriminate ].
  - intros Hno.
    destruct (String.eqb text EmptyString); [ reflexivity | ].
    destruct (findall false pat_phone (list_ascii_of_string text))
      as [ | x l ] eqn:Hf; [ reflexivity | exfalso ].
    assert (Hin : In x (findall false pat_phone (list_ascii_of_string text)))
      by (rewrite Hf; now left).
    apply scan_items in Hin as (a & b & r & Hab & Hm & _).
    apply phone_match_inv in Hm as (k & m & Hk & Hkrun & Hm & Hmrun & _).
    apply Hno. exists (take 9 (drop k b)).
    pose proof (run_length_le is_digit (drop k b)) as Hle.
    split; [ rewrite length_take; lia | ].
    split; [ apply run_length_take; lia | ].
    exists (a ++ take k b), (drop 9 (drop k b)).
    rewrite Hab, <- app_assoc. f_equal.
    now rewrite take_drop, take_drop.
Qed.

(** X9, an instance: two candidates, the longer one second. *)
Lemma extract_phone_number_shape_witness :
  extract_phone_number "call +8801712345678 or 880171234567890"
    = Some "880171234567890"%string
  /\ phone_shaped (list_ascii_of_string "880171234567890").
Proof.
  split; [ reflexivity | ].
  apply (extract_phone_number_shape
           "call +8801712345678 or 880171234567890" "880171234567890").
  reflexivity.
Defined.

(** *** What [extract_otp] returns *)

Lemma sep_then_digits_group (prev : option ascii) (s : list ascii)
    (pos : nat) (r : mres) :
  match_here true sep_then_digits prev s pos None None = Some r ->
  exists k m,
    k <= run_length separator s /\ 1 <= m
    /\ m = run_length is_digit (drop k s)
    /\ r = (pos + k + m, Some (pos + k, m)).
Proof.
  unfold sep_then_digits. cbn [match_here].
  rewrite (run_length_ext _ separator s class_separator).
  change (cset_mem true Digit) with is_digit.
  intros Hf.
  destruct (run_length separator s <? 0); [ discriminate | ].
  apply first_down_some in Hf as (k & Hk & Hcont & _).
  destruct (Nat.ltb_spec (run_length is_digit (drop k s)) 1) as [ | Hge ];
    [ discriminate | ].
  apply first_down_all_some in Hcont; [ | discriminate ].
  injection Hcont as <-.
  exists k, (run_length is_digit (drop k s)).
  split; [ lia | ]. split; [ exact Hge | ]. split; [ reflexivity | ].
  f_equal; [ lia | ]. f_equal. f_equal. lia.
Qed.

Lemma first_match_some (ps : list regex) (text x : list ascii) :
  first_match ps text = Some x ->
  exists p l, In p ps /\ findall true p text = x :: l.
Proof.
  induction ps as [ | p ps IH ]; simpl; [ discriminate | ].
  destruct (findall true p text) as [ | y l ] eqn:Hf.
  - intros H. destruct (IH H) as (q & l & Hq & Hl). exists q, l. auto.
  - intros [= <-]. exists p, l. auto.
Qed.

(** What a pattern of the list puts in its result: a standalone token of
    4 to 8 letters or digits, or the digits after a label. *)
Lemma otp_item_shape (p : regex) (text x : list ascii) :
  In p otp_patterns -> In x (findall true p text) ->
  occurs x text
  /\ ((4 <= length x <= 8 /\ forallb alnum x = true)
      \/ (1 <= length x /\ forallb is_digit x = true)).
Proof.
  intros Hp Hin.
  apply scan_items in Hin as (a & b & r & -> & Hm & ->).
  rewrite before_none in Hm.
  apply in_otp_patterns in Hp as [ -> | [ -> | (l & Hl & ->) ] ].
  - apply (token_match_split Digit is_digit (fun _ => eq_refl) digit_is_word)
      in Hm as (tok & post & -> & Hlen & Hall & _ & ->).
    unfold item_of. simpl. rewrite take_app_length.
    split; [ now exists a, post | ]. right. split; [ lia | exact Hall ].
  - apply (token_match_split _ alnum class_alnum alnum_is_word)
      in Hm as (tok & post & -> & Hlen & Hall & _ & ->).
    unfold item_of. simpl. rewrite take_app_length.
    split; [ now exists a, post | ]. left. now split.
  - unfold pat_label, lits in Hm.
    apply lits_inv in Hm as (lab & rest & -> & Hsame & Hm).
    apply sep_then_digits_group in Hm as (k & m & Hk & Hm1 & Hm & ->).
    unfold item_of. rewrite has_group_label. simpl snd.
    apply same_ignoring_case_length in Hsame.
    cbv iota beta. rewrite <- Hsame, drop_app_add.
    pose proof (run_length_le is_digit (drop k rest)) as Hle.
    split.
    + exists (a ++ lab ++ take k rest), (drop m (drop k rest)).
      rewrite <- !app_assoc. do 2 f_equal.
      now rewrite take_drop, take_drop.
    + right. split; [ rewrite length_take; lia | ].
      apply run_length_take. lia.
Qed.

Lemma length_chars (s : string) :
  length (list_ascii_of_string s) = String.length s.
Proof. induction s as [ | c s IH ]; simpl; [ reflexivity | now rewrite IH ]. Qed.

(** X11.  What [extract_otp] returns stands in the text as it is
    returned, and it is either a token of 4 to 8 letters and digits or a
    run of at least one digit; it is never the empty string. *)
Theorem extract_otp_shape (text otp : string) :
  extract_otp text = Some otp ->
  occurs (list_ascii_of_string otp) (list_ascii_of_string text)
  /\ ((4 <= String.length otp <= 8
       /\ forallb alnum (list_ascii_of_string otp) = true)
      \/ (1 <= String.length otp
          /\ forallb is_digit (list_ascii_of_string otp) = true))
  /\ otp <> EmptyString.
Proof.
  unfold extract_otp, extract_otp_chars.
  destruct (first_match otp_patterns (list_ascii_of_string text))
    as [ x | ] eqn:Hf; [ | discriminate ].
  intros [= <-]. rewrite list_ascii_of_string_of_list_ascii.
  apply first_match_some in Hf as (p & l & Hp & Hl).
  destruct (otp_item_shape p (list_ascii_of_string text) x Hp) as [Hocc Hshape];
    [ rewrite Hl; now left | ].
  rewrite <- length_chars, list_ascii_of_string_of_list_ascii.
  split; [ exact Hocc | ]. split; [ exact Hshape | ].
  destruct x as [ | c x ]; [ | discriminate ].
  destruct Hshape as [ [H _] | [H _] ]; simpl in H; lia.
Qed.

(** X11, an instance: a labeled code of three digits, no word around. *)
Lemma extract_otp_shape_witness :
  extract_otp "OTP: 123 !" = Some "123"%string
  /\ occurs (list_ascii_of_string "123") (list_ascii_of_string "OTP: 123 !").
Proof.
  split; [ reflexivity | ].
  apply (extract_otp_shape "OTP: 123 !" "123"). reflexivity.
Defined.

(** *** The inbound handler *)

Lemma extract_otp_truthy (text otp : string) :
  extract_otp text = Some otp -> String.eqb otp EmptyString = false.
Proof.
  intros H. unfold extract_otp, extract_otp_chars in H.
  destruct (first_match otp_patterns (list_ascii_of_string text))
    as [ x | ] eqn:Hf; [ | discriminate ].
  injection H as <-.
  apply first_match_some in Hf as (p & l & Hp & Hl).
  destruct (otp_item_shape p (list_ascii_of_string text) x Hp) as [_ Hshape];
    [ rewrite Hl; now left | ].
  destruct x as [ | c x ]; [ | reflexivity ].
  destruct Hshape as [ [H _] | [H _] ]; simpl in H; lia.
Qed.

Lemma letters_of_alnum (tok : list ascii) :
  forallb alnum tok = true ->
  forallb (fun c => negb (is_digit c)) tok = true ->
  forallb is_letter tok = true.
Proof.
  induction tok as [ | c tok IH ]; [ reflexivity | ]. simpl.
  intros [Ha Hr]%andb_prop [Hd Hr']%andb_prop.
  rewrite IH by assumption. rewrite andb_true_r.
  unfold alnum in Ha. unfold is_letter.
  destruct (is_digit c); [ discriminate | exact Ha ].
Qed.

Lemma alnum_of_letters (tok : list ascii) :
  forallb is_letter tok = true -> forallb alnum tok = true.
Proof.
  induction tok as [ | c tok IH ]; [ reflexivity | ]. simpl.
  intros [Ha Hr]%andb_prop. rewrite IH by assumption.
  rewrite andb_true_r. unfold alnum. unfold is_letter in Ha.
  destruct (is_digit c); [ reflexivity | exact Ha ].
Qed.

(** C9, the divergence.  The second pattern is written for tokens of
    upper-case letters and digits, but every pattern is matched ignoring
    case, so [extract_otp] takes an ordinary word for a code: for a text
    without any digit it returns a result exactly when the text holds a
    standalone word of 4 to 8 letters, and [handle_message] then
    announces the message when it comes from the configured chat.  So
    ["hello world"] yields ["hello"]. *)
Theorem words_are_taken_for_codes (text : string) :
  forallb (fun c => negb (is_digit c)) (list_ascii_of_string text) = true ->
  (extract_otp text <> None <->
   exists pre tok post,
     list_ascii_of_string text = pre ++ tok ++ post /\ plain_word pre tok post)
  /\ (forall b title,
        extract_otp text <> None ->
        exists d, handle_message b (Some text) (chat_id b) title = Some d
                  /\ extract_otp text = Some (d_otp d)).
Proof.
  intros Hnd. split.
  - rewrite extract_otp_some_iff_code_like. split.
    + intros [ (pre & tok & post & Ht & Hlen & Hal & Hst)
             | (pre & lab & seps & d & post & Ht & _ & _ & Hd) ].
      * exists pre, tok, post. split; [ exact Ht | ].
        split; [ exact Hlen | ]. split; [ | exact Hst ].
        apply letters_of_alnum; [ exact Hal | ].
        rewrite Ht, !forallb_app in Hnd.
        now apply andb_prop in Hnd as [_ [H _]%andb_prop].
      * exfalso. rewrite Ht, !forallb_app in Hnd. simpl in Hnd.
        rewrite Hd in Hnd. simpl in Hnd.
        now rewrite !andb_false_r in Hnd.
    + intros (pre & tok & post & Ht & Hlen & Hal & Hst).
      left. exists pre, tok, post. split; [ exact Ht | ].
      split; [ exact Hlen | ]. split; [ | exact Hst ].
      now apply alnum_of_letters.
  - intros b title Hsome.
    destruct (extract_otp text) as [ otp | ] eqn:He; [ | congruence ].
    assert (Hne : String.eqb text EmptyString = false).
    { destruct (String.eqb_spec text EmptyString) as [ -> | ];
        [ discriminate He | reflexivity ]. }
    unfold handle_message. rewrite Hne, String.eqb_refl, He. simpl.
    rewrite (extract_otp_truthy text otp He).
    eexists. split; reflexivity.
Qed.

(** C9, an instance: a greeting without any digit is announced with its
    first word as the code. *)
Lemma words_are_taken_for_codes_witness :
  forallb (fun c => negb (is_digit c)) (list_ascii_of_string "hello world")
    = true
  /\ extract_otp "hello world" = Some "hello"%string
  /\ extract_otp "hello world" <> None
  /\ exists d, handle_message bot0 (Some "hello world"%string) "-1001" None
               = Some d
               /\ d_otp d = "hello"%string.
Proof.
  assert (Hnd : forallb (fun c => negb (is_digit c))
                  (list_ascii_of_string "hello world") = true)
    by reflexivity.
  assert (Hsome : extract_otp "hello world" <> None).
  { apply (proj1 (words_are_taken_for_codes "hello world" Hnd)).
    exists [], (list_ascii_of_string "hello"), (list_ascii_of_string " world").
    split; [ reflexivity | ].
    split; [ simpl; lia | ]. split; [ reflexivity | split; reflexivity ]. }
  split; [ exact Hnd | ]. split; [ reflexivity | ]. split; [ exact Hsome | ].
  destruct (proj2 (words_are_taken_for_codes "hello world" Hnd)
              bot0 None Hsome) as (d & Hd & Ho).
  exists d. split; [ exact Hd | ].
  change (extract_otp "hello world") with (Some "hello"%string) in Ho.
  congruence.
Defined.


(** X12.  [handle_message] sends exactly for the messages with a
    non-empty text that come from the configured chat and hold a
    code-like substring; in particular a message of another chat is
    ignored whatever its text, and so is an update without text.  What is
    sent carries the text, the code [extract_otp] found and the
    application name. *)
Theorem handle_message_sends_iff
    (b : bot) (text chat : string) (title : option string) :
  (handle_message b (Some text) chat title <> None <->
   text <> EmptyString /\ chat = chat_id b
   /\ code_like (list_ascii_of_string text))
  /\ handle_message b None chat title = None
  /\ (forall d, handle_message b (Some text) chat title = Some d ->
                extract_otp text = Some (d_otp d) /\ d_text d = text
                /\ d_application d = extract_application_name text).
Proof.
  split; [ | split; [ reflexivity | ] ].
  - unfold handle_message.
    destruct (String.eqb_spec text EmptyString) as [ -> | Hne ].
    { split; [ congruence | intros [H _]; congruence ]. }
    destruct (String.eqb_spec chat (chat_id b)) as [ -> | Hchat ]; simpl.
    + destruct (extract_otp text) as [ otp | ] eqn:He.
      * rewrite (extract_otp_truthy text otp He).
        split; [ intros _ | discriminate ].
        split; [ exact Hne | ]. split; [ reflexivity | ].
        apply extract_otp_some_iff_code_like. congruence.
      * split; [ congruence | ].
        intros (_ & _ & Hc).
        apply extract_otp_some_iff_code_like in Hc. congruence.
    + split; [ congruence | intros (_ & H & _); congruence ].
  - intros d. unfold handle_message.
    destruct (String.eqb text EmptyString); [ discriminate | ].
    destruct (negb (String.eqb chat (chat_id b))); [ discriminate | ].
    destruct (extract_otp text) as [ otp | ]; [ | discriminate ].
    destruct (String.eqb otp EmptyString); [ discriminate | ].
    intros [= <-]. simpl. auto.
Qed.

Lemma strip_phone_shaped (p : list ascii) :
  phone_shaped p ->
  9 <= length (strip_non_digits p)
  /\ forallb is_digit (strip_non_digits p) = true.
Proof.
  intros (sign & ds & -> & Hsign & Hlen & Hall).
  rewrite strip_app, (strip_digits_id ds Hall).
  split; [ | now rewrite forallb_app, strip_all_digits, Hall ].
  destruct Hsign as [ -> | -> ]; simpl; lia.
Qed.

(** X13.  The number [handle_message] shows is the masked form of the
    phone found in the chat title, if there is one, and else of the phone
    found in the text; it is ["Unknown"] exactly when neither holds a
    phone, and otherwise it is 3 digits, five stars and 3 digits. *)
Theorem handle_message_number
    (b : bot) (text chat : string) (title : option string) (d : detection) :
  handle_message b (Some text) chat title = Some d ->
  (forall p, extract_phone_number (default EmptyString title) = Some p ->
             d_number d = format_phone_number p)
  /\ (extract_phone_number (default EmptyString title) = None ->
      forall p, extract_phone_number text = Some p ->
                d_number d = format_phone_number p)
  /\ (extract_phone_number (default EmptyString title) = None ->
      extract_phone_number text = None -> d_number d = "Unknown"%string)
  /\ (d_number d = "Unknown"%string
      \/ exists lead trail,
           length lead = 3 /\ length trail = 3
           /\ forallb is_digit (lead ++ trail) = true
           /\ d_number d = string_of_list_ascii (lead ++ stars ++ trail)).
Proof.
  unfold handle_message.
  destruct (String.eqb text EmptyString); [ discriminate | ].
  destruct (negb (String.eqb chat (chat_id b))); [ discriminate | ].
  destruct (extract_otp text) as [ otp | ]; [ | discriminate ].
  destruct (String.eqb otp EmptyString); [ discriminate | ].
  intros [= <-]. simpl d_number.
  assert (Hmask : forall src p, extract_phone_number src = Some p ->
            exists lead trail,
              length lead = 3 /\ length trail = 3
              /\ forallb is_digit (lead ++ trail) = true
              /\ format_phone_number p
                 = string_of_list_ascii (lead ++ stars ++ trail)).
  { intros src p Hp. apply extract_phone_number_parts in Hp.
    apply strip_phone_shaped in Hp as [Hlen Hall].
    fold (digits_of p) in Hlen, Hall.
    exists (take 3 (digits_of p)), (last_n 3 (digits_of p)).
    split; [ rewrite length_take; lia | ].
    split; [ apply length_last_n; lia | ].
    split.
    - rewrite forallb_app. apply andb_true_iff.
      split; [ now apply forallb_take | now apply forallb_drop ].
    - unfold format_phone_number. rewrite nonempty_when_digits by lia.
      destruct (Nat.ltb_spec (length (digits_of p)) 6); [ lia | reflexivity ]. }
  destruct (extract_phone_number (default EmptyString title)) as [ p1 | ] eqn:H1.
  - split; [ now intros p [= <-] | ]. split; [ discriminate | ].
    split; [ discriminate | ]. right. now apply (Hmask _ p1 H1).
  - split; [ discriminate | ].
    destruct (extract_phone_number text) as [ p2 | ] eqn:H2.
    + split; [ now intros _ p [= <-] | ]. split; [ discriminate | ].
      right. now apply (Hmask _ p2 H2).
    + split; [ discriminate | ]. split; [ reflexivity | now left ].
Qed.

(** X12, an instance: a message of the configured chat and the same
    message in another chat. *)
Lemma handle_message_sends_iff_witness :
  handle_message bot0 (Some "WhatsApp code 4821"%string) "-1001" None
    = Some (mk_detection "WhatsApp" "Unknown" "4821" "WhatsApp code 4821")
  /\ handle_message bot0 (Some "WhatsApp code 4821"%string) "-1002" None
     = None
  /\ extract_otp "WhatsApp code 4821" = Some "4821"%string.
Proof.
  assert (H : handle_message bot0 (Some "WhatsApp code 4821"%string)
                "-1001" None
              = Some (mk_detection "WhatsApp" "Unknown" "4821"
                        "WhatsApp code 4821")) by reflexivity.
  split; [ exact H | ]. split; [ reflexivity | ].
  apply (proj2 (proj2 (handle_message_sends_iff bot0 "WhatsApp code 4821"
                         "-1001" None)) _ H).
Defined.

(** X13, an instance: a phone in the title and another one in the text. *)
Lemma handle_message_number_witness :
  handle_message bot0 (Some "code 4821 for 8801712345678"%string) "-1001"
                 (Some "OTP line +15551234567"%string)
    = Some (mk_detection "Unknown App" "155*****567" "4821"
              "code 4821 for 8801712345678")
  /\ "155*****567"%string = format_phone_number "+15551234567".
Proof.
  assert (H : handle_message bot0 (Some "code 4821 for 8801712345678"%string)
                "-1001" (Some "OTP line +15551234567"%string)
              = Some (mk_detection "Unknown App" "155*****567" "4821"
                        "code 4821 for 8801712345678")) by reflexivity.
  split; [ exact H | ].
  apply (proj1 (handle_message_number bot0 "code 4821 for 8801712345678"
                  "-1001" (Some "OTP line +15551234567"%string) _ H)
           "+15551234567").
  reflexivity.
Defined.

(** *** The application name *)

Lemma starts_with_spec (needle hay : list ascii) :
  starts_with needle hay = true <-> exists post, hay = needle ++ post.
Proof.
  revert hay. induction needle as [ | a needle IH ]; intros hay; simpl.
  - split; [ intros _; now exists hay | reflexivity ].
  - destruct hay as [ | b hay ].
    + split; [ discriminate | intros [post H]; discriminate H ].
    + rewrite andb_true_iff, IH, Ascii.eqb_eq. split.
      * intros [-> [post ->]]. now exists post.
      * intros [post [= -> ->]]. split; [ reflexivity | now exists post ].
Qed.

Lemma contains_spec (needle hay : list ascii) :
  contains needle hay = true <-> occurs needle hay.
Proof.
  induction hay as [ | b hay IH ]; simpl.
  - rewrite orb_false_r, starts_with_spec. split.
    + intros [post H]. now exists [], post.
    + intros (pre & post & H). destruct pre; [ now exists post | discriminate ].
  - rewrite orb_true_iff, starts_with_spec, IH. split.
    + intros [ [post H] | (pre & post & ->) ].
      * now exists [], post.
      * now exists (b :: pre), post.
    + intros (pre & post & H). destruct pre as [ | c pre ].
      * left. now exists post.
      * right. injection H as -> ->. now exists pre, post.
Qed.

Lemma occurs_in_lower (key text : list ascii) :
  occurs key (map lower text) <-> occurs_ignoring_case key text.
Proof.
  split.
  - intros (pre & post & H).
    apply map_eq_app in H as (p1 & r1 & -> & Hp & H).
    apply map_eq_app in H as (m1 & q1 & -> & Hm & Hq).
    now exists p1, m1, q1.
  - intros (pre & mid & post & -> & <-).
    exists (map lower pre), (map lower post). now rewrite !map_app.
Qed.

Lemma find_first_hit {A} (f : A -> bool) (l : list A) :
  forall (i : nat) (x : A),
    nth_error l i = Some x -> f x = true ->
    (forall j y, j < i -> nth_error l j = Some y -> f y = false) ->
    find f l = Some x.
Proof.
  induction l as [ | a l IH ]; intros [ | i ] x Hx Hf Hbefore; simpl in *;
    try discriminate.
  - injection Hx as ->. now rewrite Hf.
  - rewrite (Hbefore 0 a) by (simpl; auto; lia).
    apply (IH i x Hx Hf). intros j y Hj Hy. apply (Hbefore (S j) y); [ lia | exact Hy ].
Qed.

Lemma find_none_iff {A} (f : A -> bool) (l : list A) :
  find f l = None <-> forall x, In x l -> f x = false.
Proof.
  induction l as [ | a l IH ]; simpl.
  - split; [ intros _ x [] | reflexivity ].
  - destruct (f a) eqn:Ha.
    + split; [ discriminate | ]. intros H. rewrite (H a) in Ha by now left.
      discriminate.
    + rewrite IH. split.
      * intros H x [ <- | Hx ]; [ exact Ha | now apply H ].
      * intros H x Hx. apply H. now right.
Qed.

(** X14.  [extract_application_name] ignores the case of letters and
    gives the display name of the first keyword of the table that occurs
    in the text: a keyword wins when it occurs and no keyword listed
    before it does; the result is ["Unknown App"] exactly when no
    keyword occurs. *)
Theorem extract_application_name_first_keyword (text : string) :
  (forall i key name,
      nth_error app_patterns i = Some (key, name) ->
      occurs_ignoring_case (list_ascii_of_string key)
                           (list_ascii_of_string text) ->
      (forall j key' name',
          j < i -> nth_error app_patterns j = Some (key', name') ->
          ~ occurs_ignoring_case (list_ascii_of_string key')
                                 (list_ascii_of_string text)) ->
      extract_application_name text = name)
  /\ (extract_application_name text = "Unknown App"%string <->
      forall key name,
        In (key, name) app_patterns ->
        ~ occurs_ignoring_case (list_ascii_of_string key)
                               (list_ascii_of_string text)).
Proof.
  split.
  - intros i key name Hi Hocc Hbefore.
    unfold extract_application_name.
    rewrite (find_first_hit _ app_patterns i (key, name) Hi).
    + reflexivity.
    + simpl. now apply contains_spec, occurs_in_lower.
    + intros j [key' name'] Hj Hy. simpl.
      destruct (contains (list_ascii_of_string key')
                  (map lower (list_ascii_of_string text))) eqn:Hc;
        [ | reflexivity ].
      exfalso. apply (Hbefore j key' name' Hj Hy).
      now apply occurs_in_lower, contains_spec.
  - unfold extract_application_name.
    destruct (find _ app_patterns) as [ pn | ] eqn:Hf.
    + split.
      * intros Hname. exfalso.
        apply find_some in Hf as [Hin _].
        assert (Hall : forallb (fun pn => negb (String.eqb (snd pn)
                                                  "Unknown App"))
                               app_patterns = true) by reflexivity.
        rewrite forallb_forall in Hall. specialize (Hall pn Hin).
        rewrite Hname in Hall. discriminate Hall.
      * intros Hno. exfalso. apply find_some in Hf as [Hin Hc].
        destruct pn as [key name]. apply (Hno key name Hin).
        now apply occurs_in_lower, contains_spec.
    + split; [ | reflexivity ]. intros _ key name Hin Hocc.
      rewrite find_none_iff in Hf. specialize (Hf (key, name) Hin).
      simpl in Hf. apply occurs_in_lower, contains_spec in Hocc. congruence.
Qed.

(** X14, an instance: two keywords in the text, the earlier one of the
    table wins. *)
Lemma extract_application_name_first_keyword_witness :
  extract_application_name "Your ChatGPT (OpenAI) code" = "OpenAI"%string.
Proof.
  apply (proj1 (extract_application_name_first_keyword
                  "Your ChatGPT (OpenAI) code") 1 "openai" "OpenAI").
  - reflexivity.
  - apply occurs_in_lower, contains_spec. reflexivity.
  - intros j key' name' Hj Hy.
    destruct j as [ | j ]; [ | lia ]. simpl in Hy. injection Hy as <- <-.
    intros Hocc. apply occurs_in_lower, contains_spec in Hocc.
    discriminate Hocc.
Defined.

(* ===================================================================== *)
(** ** Startup                                                            *)
(* ===================================================================== *)

Section StartupFacts.

Variable int_of_text : string -> option Z.


End StartupFacts.


(* ===================================================================== *)
(** ** A transport that delivers                                          *)
(* ===================================================================== *)

Section Delivering.

Variable fromisoformat : string -> option datetime.
Variable T : Type.
Variable send_message : T -> string -> announcement -> T * bool.

Hypothesis delivers : forall t c a, snd (send_message t c a) = true.

Lemma delivering_completes (b : bot) (new : list record) :
  forall t : T,
    snd (delivering fromisoformat T send_message b new t) = true
    /\ announced (snd (fst (delivering fromisoformat T send_message b new t)))
       = new.
Proof.
  induction new as [ | n new IH ]; intros t; [ now split | ].
  simpl.
  pose proof (delivers t (chat_id b) (build fromisoformat n)) as Hs.
  destruct (send_message t (chat_id b) (build fromisoformat n)) as [t1 o1].
  simpl in Hs. subst o1.
  specialize (IH t1).
  destruct (delivering fromisoformat T send_message b new t1) as [[t2 evs] ok].
  simpl in *. destruct IH as [-> ->]. now split.
Qed.

(** X16.  With a transport that accepts every message, a cycle on a page
    of objects none of which has a truthy unhashable id announces every
    truthy id of the page that was not in the ledger: the announced
    records are exactly the queued ones. *)
Theorem new_ids_are_announced (b : bot) (recs : list record) (t : T) :
  started b = true ->
  Forall (fun n => unhashable_id n = false) recs ->
  let h := HttpReply 200 (NumList (map Obj recs)) in
  announced (events_of fromisoformat T send_message b h t) = queued b h
  /\ forall n, n ∈ recs -> truthy (dict_get n "id" PNone) = true ->
               id_of n ∉ sent_numbers b ->
               id_of n ∈ map id_of
                 (announced (events_of fromisoformat T send_message b h t)).
Proof.
  intros Hst Hclean h.
  assert (Hp : get_recent_success_numbers_after_start b h
               = NumList (map Obj recs)).
  { unfold get_recent_success_numbers_after_start. now rewrite Hst. }
  assert (Ha : announced (events_of fromisoformat T send_message b h t)
               = queued b h).
  { rewrite events_of_stages. unfold queued. rewrite Hp.
    pose proof (filtering_objects_complete recs Hclean (sent_numbers b) [])
      as Hc.
    destruct (filtering (map Obj recs) (sent_numbers b) [])
      as [[sent new] ok]. simpl in Hc. subst ok. simpl.
    destruct (delivering_completes (with_sent b sent) new t) as [Hok Hev].
    destruct (delivering fromisoformat T send_message (with_sent b sent) new t)
      as [[t' evs] ok]. simpl in *. subst ok.
    now rewrite announced_app, app_nil_r. }
  split; [ exact Ha | ].
  intros n Hn Ht Hfresh. rewrite Ha.
  destruct (ledger_after_queued fromisoformat T send_message b h t)
    as (Hl & _).
  assert (Hin : id_of n ∈ ledger_after fromisoformat T send_message b h t).
  { rewrite ledger_after_filtering, Hp.
    apply (filtering_covers (map Obj recs) (sent_numbers b) []);
      [ now apply filtering_objects_complete | | exact Ht ].
    apply list_elem_of_fmap. now exists n. }
  rewrite Hl in Hin. apply elem_of_union in Hin as [Hin | Hin];
    [ | contradiction ].
  now apply elem_of_list_to_set in Hin.
Qed.

End Delivering.

(** X16, an instance: the page [[a; b; a]] and the accepting transport. *)
Lemma new_ids_are_announced_witness :
  announced (events_of fromisoformat_core unit accepting bot0
               (HttpReply 200 (NumList (map Obj [rec_id "a"; rec_id "b";
                                                 rec_id "a"]))) tt)
  = queued bot0 (HttpReply 200 (NumList (map Obj [rec_id "a"; rec_id "b";
                                                  rec_id "a"]))).
Proof.
  apply (new_ids_are_announced fromisoformat_core unit accepting
           (fun _ _ _ => eq_refl) bot0 [rec_id "a"; rec_id "b"; rec_id "a"] tt).
  - reflexivity.
  - repeat constructor.
Defined.
